(** * The Redis token driver of keystone ([keystone/token/backends/redis.py])

    A shallow embedding of the driver [Token] and of the part of Python and
    of Redis it runs on, followed by the properties of the token store
    checked against it.

    Conventions of the embedding:
    - a [datetime] is the number of seconds since the epoch (naive UTC,
      what [timeutils.normalize_time] yields), a [timedelta] a number of
      seconds; sub-second resolution is not modelled;
    - every driver call runs at one instant [now], which is also the clock
      of the Redis server; a string set with a time to live is there up to
      the instant at which the time to live is over, that instant included;
    - a Python exception is a result [Raise e]; the effects made before it
      was raised stay in the world, as in Python. *)

From Stdlib Require Import ZArith List String Ascii Strings.Byte Bool Lia.
From stdpp Require Import base option gmap strings list fin_maps.

Open Scope string_scope.
Open Scope Z_scope.

(** ** Python values *)

(** The values a token record is made of. A dict with [str] keys is an
    association list with at most one binding per key in use (see
    [dict_setitem]). *)
Inductive pyval : Type :=
| PNone
| PInt (n : Z)
| PStr (s : string)
| PTime (t : Z)
| PDict (kvs : list (string * pyval)).

Abbreviation pydict := (list (string * pyval)).

(** Structural equality of values; on the values used as filter
    arguments and version tags (strings) it is Python's [==]. *)
Fixpoint pyval_eqb (a b : pyval) {struct a} : bool :=
  match a, b with
  | PNone, PNone => true
  | PInt x, PInt y => Z.eqb x y
  | PStr x, PStr y => String.eqb x y
  | PTime x, PTime y => Z.eqb x y
  | PDict k1, PDict k2 =>
      (fix go (l1 l2 : pydict) {struct l1} : bool :=
         match l1, l2 with
         | [], [] => true
         | (s1, v1) :: r1, (s2, v2) :: r2 =>
             String.eqb s1 s2 && pyval_eqb v1 v2 && go r1 r2
         | _, _ => false
         end) k1 k2
  | _, _ => false
  end.

(** Python truth value testing ([if not x]). *)
Definition truthy (v : pyval) : bool :=
  match v with
  | PNone => false
  | PInt n => negb (Z.eqb n 0)
  | PStr s => negb (String.eqb s "")
  | PTime _ => true
  | PDict kvs => match kvs with [] => false | _ => true end
  end.

(** [d.get(k)] as an option, [d[k] = v], [d.get(k)] with the [None]
    default. *)
Fixpoint dict_lookup (k : string) (d : pydict) : option pyval :=
  match d with
  | [] => None
  | (k', v) :: r => if String.eqb k k' then Some v else dict_lookup k r
  end.

Fixpoint dict_setitem (k : string) (v : pyval) (d : pydict) : pydict :=
  match d with
  | [] => [(k, v)]
  | (k', v') :: r =>
      if String.eqb k k' then (k', v) :: r else (k', v') :: dict_setitem k v r
  end.

Definition dict_get (k : string) (d : pydict) : pyval :=
  match dict_lookup k d with Some v => v | None => PNone end.

(** ** Exceptions *)

Inductive exn : Type :=
| TokenNotFound (token_id : string)   (* keystone.exception.TokenNotFound *)
| UnexpectedError                     (* keystone.exception.UnexpectedError *)
| UnsupportedTokenVersionException    (* keystone.token.provider *)
| KeyError (k : string)
| TypeError
| AttributeError
| UnpicklingError                     (* what pickle.loads raises on bytes that are no pickle *)
| ResponseError.                      (* redis.ResponseError: WRONGTYPE *)

Inductive result (A : Type) : Type :=
| Ok (a : A)
| Raise (e : exn).
Arguments Ok {A} a.
Arguments Raise {A} e.

(** ** The Redis server *)

(** A byte string held by Redis, seen through [pickle.loads]: the pickle
    of a value ([pickle.dumps v], whatever the protocol), or bytes that are
    no pickle, on which [pickle.loads] raises. *)
Inductive rbytes : Type :=
| Pickle (v : pyval)
| Raw (bs : list byte).

#[global] Instance byte_eq_dec : EqDecision byte := Byte.byte_eq_dec.

Definition pickle_dumps (v : pyval) : rbytes := Pickle v.

Definition pickle_loads (b : rbytes) : result pyval :=
  match b with
  | Pickle v => Ok v
  | Raw _ => Raise UnpicklingError
  end.

Definition rbytes_eqb (a b : rbytes) : bool :=
  match a, b with
  | Pickle x, Pickle y => pyval_eqb x y
  | Raw x, Raw y => bool_decide (x = y)
  | _, _ => false
  end.

(** A sorted set: members with their scores, in increasing order of
    score. Redis orders members of equal score by their bytes; the bytes of
    a pickle are not modelled, and here such members stay in the order of
    their insertion. The statements below are about which members a set
    holds and how often, or are relative to the order the set has in the
    state: none depends on the order among members of equal score. *)
Abbreviation zset := (list (rbytes * Z)).

(** What a key holds: a string with the instant at which it expires
    (every string of the driver is written by SETEX), or a sorted set. *)
Inductive rentry : Type :=
| RString (v : rbytes) (deadline : Z)
| RZSet (z : zset).

(** ** The world: the Redis keyspace, the Python heap, the background saves *)

Abbreviation loc := nat.

Record world : Type := World {
  redis : gmap string rentry;
  heap : gmap nat pydict;      (* the dict objects the caller and the driver hold *)
  bgsaves : nat;               (* the number of background saves started *)
  saving : bool                (* a background save is in progress *)
}.

Definition set_redis (r : gmap string rentry) (w : world) : world :=
  World r (heap w) (bgsaves w) (saving w).
Definition set_heap (h : gmap nat pydict) (w : world) : world :=
  World (redis w) h (bgsaves w) (saving w).

(** ** The monad of driver code: state and exceptions *)

Definition M (A : Type) : Type := world -> world * result A.

Definition ret {A} (a : A) : M A := fun w => (w, Ok a).
Definition raise {A} (e : exn) : M A := fun w => (w, Raise e).
Definition bind {A B} (m : M A) (f : A -> M B) : M B :=
  fun w => match m w with
           | (w', Ok a) => f a w'
           | (w', Raise e) => (w', Raise e)
           end.
Definition lift {A} (r : result A) : M A := fun w => (w, r).

Declare Scope py_scope.
Delimit Scope py_scope with py.
Notation "x <- c1 ;; c2" := (bind c1 (fun x => c2))
  (at level 100, c1 at next level, right associativity) : py_scope.
Notation "c1 ;;; c2" := (bind c1 (fun _ => c2))
  (at level 100, right associativity) : py_scope.
Open Scope py_scope.

Definition try_except_KeyError {A} (body handler : M A) : M A :=
  fun w => match body w with
           | (w', Raise (KeyError _)) => handler w'
           | r => r
           end.

(** *** Sorted sets *)

Definition zrem (m : rbytes) (z : zset) : zset :=
  List.filter (fun e => negb (rbytes_eqb (fst e) m)) z.

Fixpoint zinsert (m : rbytes) (s : Z) (z : zset) : zset :=
  match z with
  | [] => [(m, s)]
  | (m', s') :: r =>
      if s <? s' then (m, s) :: (m', s') :: r else (m', s') :: zinsert m s r
  end.

(** ZADD on a set: a member already there takes the new score and place. *)
Definition zset_add (m : rbytes) (s : Z) (z : zset) : zset :=
  zinsert m s (zrem m z).

(** ZREMRANGEBYSCORE on a set: both bounds are inclusive. *)
Definition zset_remrangebyscore (lo hi : Z) (z : zset) : zset :=
  List.filter (fun e => negb ((lo <=? snd e) && (snd e <=? hi))) z.

(** ZRANGE on a set: positions from [start] to [stop], both inclusive,
    a negative one counting from the end. *)
Definition zset_range (start stop : Z) (z : zset) : list rbytes :=
  let n := Z.of_nat (length z) in
  let s := if start <? 0 then Z.max (n + start) 0 else start in
  let e := if stop <? 0 then n + stop else Z.min stop (n - 1) in
  if e <? s then []
  else map fst (firstn (Z.to_nat (e - s + 1)) (skipn (Z.to_nat s) z)).

Definition zset_score (m : rbytes) (z : zset) : option Z :=
  snd <$> List.find (fun e => rbytes_eqb (fst e) m) z.

(** The members equal to [m]. *)
Definition occurrences (m : rbytes) (z : zset) : nat :=
  length (List.filter (fun e => rbytes_eqb (fst e) m) z).

(** *** The keyspace *)

(** A string is there up to its deadline, the deadline included, and
    gone for every command once the deadline has passed. *)
Definition live (now : Z) (e : rentry) : bool :=
  match e with
  | RString _ deadline => now <=? deadline
  | RZSet _ => true
  end.

Definition rlookup (now : Z) (key : string) (r : gmap string rentry)
  : option rentry :=
  match r !! key with
  | Some e => if live now e then Some e else None
  | None => None
  end.

(** The sorted set at [key]: empty for a missing key, WRONGTYPE for a
    string. *)
Definition zset_at (now : Z) (key : string) (r : gmap string rentry)
  : result zset :=
  match rlookup now key r with
  | None => Ok []
  | Some (RZSet z) => Ok z
  | Some (RString _ _) => Raise ResponseError
  end.

(** A sorted set left empty is removed with its key. *)
Definition put_zset (key : string) (z : zset) (r : gmap string rentry)
  : gmap string rentry :=
  match z with
  | [] => delete key r
  | _ => <[key := RZSet z]> r
  end.

(** *** The commands of the client ([redis.Redis], the legacy argument
    order the driver uses) *)

Definition client_get (now : Z) (key : string) : M (option rbytes) :=
  fun w => match rlookup now key (redis w) with
           | None => (w, Ok None)
           | Some (RString v _) => (w, Ok (Some v))
           | Some (RZSet _) => (w, Raise ResponseError)
           end.

(** SETEX overwrites whatever the key holds; the string expires [ttl]
    seconds from now. Redis refuses a [ttl] of zero or less (invalid
    expire time) and writes nothing. *)
Definition client_setex (now : Z) (key : string) (value : rbytes) (ttl : Z)
  : M unit :=
  fun w => if ttl <=? 0 then (w, Raise ResponseError)
           else (set_redis (<[key := RString value (now + ttl)]> (redis w)) w,
                 Ok tt).

(** DEL removes a key of any type; a missing key is no error. *)
Definition client_delete (key : string) : M unit :=
  fun w => (set_redis (delete key (redis w)) w, Ok tt).

Definition client_zadd (now : Z) (key : string) (value : rbytes) (score : Z)
  : M unit :=
  fun w => match zset_at now key (redis w) with
           | Ok z => (set_redis (<[key := RZSet (zset_add value score z)]> (redis w)) w,
                      Ok tt)
           | Raise e => (w, Raise e)
           end.

Definition client_zrange (now : Z) (key : string) (start stop : Z)
  : M (list rbytes) :=
  fun w => match zset_at now key (redis w) with
           | Ok z => (w, Ok (zset_range start stop z))
           | Raise e => (w, Raise e)
           end.

Definition client_zremrangebyscore (now : Z) (key : string) (lo hi : Z)
  : M unit :=
  fun w => match rlookup now key (redis w) with
           | None => (w, Ok tt)
           | Some (RZSet z) =>
               (set_redis (put_zset key (zset_remrangebyscore lo hi z) (redis w)) w,
                Ok tt)
           | Some (RString _ _) => (w, Raise ResponseError)
           end.

(** BGSAVE starts a background save; Redis refuses it while one is in
    progress. The save ends on its own, between two calls of the driver. *)
Definition client_bgsave : M unit :=
  fun w => if saving w then (w, Raise ResponseError)
           else (World (redis w) (heap w) (S (bgsaves w)) true, Ok tt).

(** ** Python operations on values and on the heap *)

(** [v[k]] *)
Definition py_getitem (v : pyval) (k : string) : result pyval :=
  match v with
  | PDict d => match dict_lookup k d with
               | Some x => Ok x
               | None => Raise (KeyError k)
               end
  | _ => Raise TypeError
  end.

(** [v.get(k)] *)
Definition py_get (v : pyval) (k : string) : result pyval :=
  match v with
  | PDict d => Ok (dict_get k d)
  | _ => Raise AttributeError
  end.

(** [a - b] on datetimes: a timedelta, in seconds. *)
Definition py_sub (a b : pyval) : result Z :=
  match a, b with
  | PTime x, PTime y => Ok (x - y)
  | _, _ => Raise TypeError
  end.

(** A dict object of the heap; a reference always points to one. *)
Definition load (l : loc) : M pydict :=
  fun w => match heap w !! l with
           | Some d => (w, Ok d)
           | None => (w, Raise TypeError)
           end.

(** [copy.deepcopy(data)]: a new object with the same contents. *)
Definition deepcopy (l : loc) : M loc :=
  fun w => match heap w !! l with
           | Some d => let l' := fresh (dom (heap w)) in
                       (set_heap (<[l' := d]> (heap w)) w, Ok l')
           | None => (w, Raise TypeError)
           end.

(** [data[k] = v] *)
Definition setitem (l : loc) (k : string) (v : pyval) : M unit :=
  fun w => match heap w !! l with
           | Some d => (set_heap (<[l := dict_setitem k v d]> (heap w)) w, Ok tt)
           | None => (w, Raise TypeError)
           end.

(** [data.setdefault(k, v)] *)
Definition setdefault (l : loc) (k : string) (v : pyval) : M pyval :=
  fun w => match heap w !! l with
           | Some d => match dict_lookup k d with
                       | Some x => (w, Ok x)
                       | None => (set_heap (<[l := dict_setitem k v d]> (heap w)) w,
                                  Ok v)
                       end
           | None => (w, Raise TypeError)
           end.

(** [_to_timestamp(dt)]: [calendar.timegm(dt.timetuple())]. *)
Definition _to_timestamp (dt : pyval) : result Z :=
  match dt with
  | PTime t => Ok t
  | _ => Raise AttributeError
  end.

(** An optional [str] argument ([tenant_id=None], ...) as a value. *)
Definition arg (a : option string) : pyval :=
  match a with
  | Some s => PStr s
  | None => PNone
  end.

(** ** The driver *)

Section Driver.

(** What the driver takes from the rest of keystone and from Python. *)
Variable default_expire_time : Z -> Z.   (* token.default_expire_time(), from the clock *)
Variable trust_enabled : bool.           (* CONF.trust.enabled *)
Variables V2 V3 : string.                (* token.provider.V2, token.provider.V3 *)
Variable str_of : pyval -> string.       (* str() of a value that is not a str *)

(** ["%s" % v] *)
Definition py_str (v : pyval) : string :=
  match v with
  | PStr s => s
  | _ => str_of v
  end.

Definition _revocation_list : string := "keystone:token:revoked".

Definition _get_key (type_ : string) (key : pyval) : string :=
  ("keystone:" ++ type_ ++ ":" ++ py_str key)%string.

Definition _set (now : Z) (key : string) (value : pyval) (ttl : Z) : M unit :=
  client_setex now key (pickle_dumps value) ttl.

(** [None] when the key is missing. *)
Definition _get (now : Z) (key : string) : M pyval :=
  value <- client_get now key ;;
  match value with
  | Some b => lift (pickle_loads b)
  | None => ret PNone
  end.

Definition _zadd (now : Z) (key : string) (score : Z) (value : pyval) : M unit :=
  client_zadd now key (pickle_dumps value) score.

Fixpoint map_loads (l : list rbytes) : result (list pyval) :=
  match l with
  | [] => Ok []
  | b :: r =>
      match pickle_loads b with
      | Ok v => match map_loads r with
                | Ok vs => Ok (v :: vs)
                | Raise e => Raise e
                end
      | Raise e => Raise e
      end
  end.

Definition _zrange (now : Z) (key : string) (start end_ : Z) : M (list pyval) :=
  ret_ <- client_zrange now key start end_ ;;
  lift (map_loads ret_).

Definition _remove_expired (now : Z) (key : string) : M unit :=
  let current_time := now in
  client_zremrangebyscore now key 0 current_time.

Definition get_token (now : Z) (token_id : string) : M pyval :=
  if negb (truthy (PStr token_id)) then raise (TokenNotFound "")
  else
    ret_ <- _get now (_get_key "token" (PStr token_id)) ;;
    if negb (truthy ret_) then raise (TokenNotFound token_id)
    else ret ret_.

(** The trustee of a token, by the version of its payload. *)
Definition trustee_of (d : pydict) : result pyval :=
  match py_getitem (PDict d) "token_data" with
  | Raise e => Raise e
  | Ok token_data =>
      match py_getitem (PDict d) "token_version" with
      | Raise e => Raise e
      | Ok version =>
          if pyval_eqb version (PStr V2) then
            match py_getitem token_data "access" with
            | Raise e => Raise e
            | Ok access =>
                match py_getitem access "trust" with
                | Raise e => Raise e
                | Ok trust => py_getitem trust "trustee_user_id"
                end
            end
          else if pyval_eqb version (PStr V3) then
            match py_getitem token_data "OS-TRUST:trust" with
            | Raise e => Raise e
            | Ok trust => py_getitem trust "trustee_user_id"
            end
          else Raise UnsupportedTokenVersionException
      end
  end.

Definition create_token (now : Z) (token_id : string) (data : loc) : M loc :=
  data <- deepcopy data ;;
  expires <- setdefault data "expires" (PTime (default_expire_time now)) ;;
  let current_time := PTime now in
  d <- load data ;;
  (if negb (truthy (dict_get "user_id" d)) then
     user <- lift (py_getitem (PDict d) "user") ;;
     id <- lift (py_getitem user "id") ;;
     setitem data "user_id" id
   else ret tt) ;;;
  d <- load data ;;
  ttl <- lift (py_sub expires current_time) ;;
  _set now (_get_key "token" (PStr token_id)) (PDict d) ttl ;;;
  ts <- lift (_to_timestamp expires) ;;
  _zadd now (_get_key "user" (dict_get "user_id" d)) ts (PStr token_id) ;;;
  (if trust_enabled && truthy (dict_get "trust_id" d) then
     trustee_user_id <- lift (trustee_of d) ;;
     ts <- lift (_to_timestamp expires) ;;
     _zadd now (_get_key "user" trustee_user_id) ts (PStr token_id)
   else ret tt) ;;;
  ret data.

Definition delete_token (now : Z) (token_id : string) : M unit :=
  data <- get_token now token_id ;;
  client_delete (_get_key "token" (PStr token_id)) ;;;
  expires <- lift (py_getitem data "expires") ;;
  ts <- lift (_to_timestamp expires) ;;
  _zadd now _revocation_list ts data ;;;
  client_bgsave.

(** The nested lookup of the consumer filter, inside its [try]: [true]
    stands for [continue]. *)
Definition consumer_differs (token_data : pyval) (consumer_id : pyval)
  : result bool :=
  match py_getitem token_data "token_data" with
  | Raise e => Raise e
  | Ok td =>
      match py_getitem td "token" with
      | Raise e => Raise e
      | Ok tok =>
          match py_getitem tok "OS-OAUTH1" with
          | Raise e => Raise e
          | Ok oauth =>
              match py_get oauth "consumer_id" with
              | Raise e => Raise e
              | Ok c => Ok (negb (pyval_eqb c consumer_id))
              end
          end
      end
  end.

(** One turn of the loop of [list_tokens]: [false] where the source
    reaches a [continue], [true] where it reaches [tokens.append]. *)
Definition keep_token (now : Z) (tenant_id trust_id consumer_id : pyval)
    (token_id : pyval) : M bool :=
  token_data <- _get now (_get_key "token" token_id) ;;
  if negb (truthy token_data) then ret false
  else
    differs <- (if truthy tenant_id then
                  v <- lift (py_get token_data "tenant_id") ;;
                  ret (negb (pyval_eqb v tenant_id))
                else ret false) ;;
    if differs : bool then ret false
    else
      differs <- (if truthy trust_id then
                    v <- lift (py_get token_data "trust_id") ;;
                    ret (negb (pyval_eqb v trust_id))
                  else ret false) ;;
      if differs : bool then ret false
      else
        if truthy consumer_id then
          try_except_KeyError
            (differs <- lift (consumer_differs token_data consumer_id) ;;
             ret (negb differs))
            (ret false)
        else ret true.

Fixpoint collect_tokens (now : Z) (tenant_id trust_id consumer_id : pyval)
    (user_tokens : list pyval) : M (list pyval) :=
  match user_tokens with
  | [] => ret []
  | token_id :: rest =>
      keep <- keep_token now tenant_id trust_id consumer_id token_id ;;
      tokens <- collect_tokens now tenant_id trust_id consumer_id rest ;;
      ret (if keep : bool then token_id :: tokens else tokens)
  end.

Definition list_tokens (now : Z) (user_id : string)
    (tenant_id trust_id consumer_id : option string) : M (list pyval) :=
  let skey := _get_key "user" (PStr user_id) in
  _remove_expired now skey ;;;
  user_tokens <- _zrange now skey 0 (-1) ;;
  collect_tokens now (arg tenant_id) (arg trust_id) (arg consumer_id) user_tokens.

Definition list_revoked_tokens (now : Z) : M (list pyval) :=
  _remove_expired now _revocation_list ;;;
  _zrange now _revocation_list 0 (-1).

End Driver.

(** ** Induction on values, through the dicts *)

Section PyvalInd.
Variable P : pyval -> Prop.
Hypothesis HNone : P PNone.
Hypothesis HInt : forall n, P (PInt n).
Hypothesis HStr : forall s, P (PStr s).
Hypothesis HTime : forall t, P (PTime t).
Hypothesis HDict : forall kvs, Forall (fun kv => P (snd kv)) kvs -> P (PDict kvs).

Fixpoint pyval_nested_ind (v : pyval) : P v :=
  match v with
  | PNone => HNone
  | PInt n => HInt n
  | PStr s => HStr s
  | PTime t => HTime t
  | PDict kvs =>
      HDict kvs
        ((fix all (l : pydict) : Forall (fun kv => P (snd kv)) l :=
            match l with
            | [] => List.Forall_nil _
            | kv :: r => List.Forall_cons _ kv r (pyval_nested_ind (snd kv)) (all r)
            end) kvs)
  end.
End PyvalInd.

(** ** [create_token] in closed form *)

(** The pieces of the outcome of [create_token]; [create_token_run] below
    proves that they describe it. *)
Section Outcome.
Variable default_expire_time : Z -> Z.
Variable now : Z.

(** The value [data.setdefault('expires', ...)] returns, and the dict
    it leaves. *)
Definition expires_of (d : pydict) : pyval :=
  match dict_lookup "expires" d with
  | Some e => e
  | None => PTime (default_expire_time now)
  end.

Definition with_expires (d : pydict) : pydict :=
  match dict_lookup "expires" d with
  | Some _ => d
  | None => dict_setitem "expires" (PTime (default_expire_time now)) d
  end.

(** The dict after [if not data.get('user_id'): ...]. *)
Definition with_user_id (d : pydict) : result pydict :=
  if negb (truthy (dict_get "user_id" d)) then
    match py_getitem (PDict d) "user" with
    | Raise e => Raise e
    | Ok user =>
        match py_getitem user "id" with
        | Raise e => Raise e
        | Ok id => Ok (dict_setitem "user_id" id d)
        end
    end
  else Ok d.

(** The keyspace after a ZADD. *)
Definition zadd_at (key : string) (m : rbytes) (s : Z) (r : gmap string rentry)
  : result (gmap string rentry) :=
  match zset_at now key r with
  | Ok z => Ok (<[key := RZSet (zset_add m s z)]> r)
  | Raise e => Raise e
  end.
End Outcome.

(** ** The filters of [list_tokens], for the statements about them *)

(** An optional argument counts as supplied when it is true for Python:
    neither [None] nor the empty string. *)
Definition supplied (a : option string) : bool := truthy (arg a).

(** The record [d] carries the nested OAuth structure [oauth]:
    [d['token_data']['token']['OS-OAUTH1']]. *)
Definition nested_oauth (d oauth : pydict) : Prop :=
  exists td tok,
    dict_lookup "token_data" d = Some (PDict td) /\
    dict_lookup "token" td = Some (PDict tok) /\
    dict_lookup "OS-OAUTH1" tok = Some (PDict oauth).

(** The record lacks that structure: a key is missing on the way. *)
Definition lacks_oauth (d : pydict) : Prop :=
  dict_lookup "token_data" d = None \/
  (exists td,
     dict_lookup "token_data" d = Some (PDict td) /\
     dict_lookup "token" td = None) \/
  (exists td tok,
     dict_lookup "token_data" d = Some (PDict td) /\
     dict_lookup "token" td = Some (PDict tok) /\
     dict_lookup "OS-OAUTH1" tok = None).

(** Every value on the way to the OAuth structure that is there is a
    dict: the structure is there, or a key is missing on the way. *)
Definition well_nested (d : pydict) : Prop :=
  lacks_oauth d \/ exists oauth, nested_oauth d oauth.

(** The selection of [list_tokens] in the words of its specification:
    the nested consumer id of a record, when the structure is there; a
    record matches when each supplied filter equals its field; a candidate
    is selected when its record is there and matches. *)
Definition nested_consumer (d : pydict) : option pyval :=
  match dict_lookup "token_data" d with
  | Some (PDict td) =>
      match dict_lookup "token" td with
      | Some (PDict tok) =>
          match dict_lookup "OS-OAUTH1" tok with
          | Some (PDict oauth) => Some (dict_get "consumer_id" oauth)
          | _ => None
          end
      | _ => None
      end
  | _ => None
  end.

Definition record_selected (tenant_id trust_id consumer_id : option string)
    (d : pydict) : bool :=
  (negb (supplied tenant_id)
   || pyval_eqb (dict_get "tenant_id" d) (arg tenant_id))
  && (negb (supplied trust_id)
      || pyval_eqb (dict_get "trust_id" d) (arg trust_id))
  && (negb (supplied consumer_id)
      || match nested_consumer d with
         | Some c => pyval_eqb c (arg consumer_id)
         | None => false
         end).

Definition token_selected (str_of : pyval -> string) (now : Z)
    (r : gmap string rentry) (tenant_id trust_id consumer_id : option string)
    (token_id : pyval) : bool :=
  match rlookup now (_get_key str_of "token" token_id) r with
  | Some (RString (Pickle (PDict d)) _) =>
      truthy (PDict d) && record_selected tenant_id trust_id consumer_id d
  | _ => false
  end.

(** ** The scores the driver writes *)

(** Every score of a sorted set, and the expiry of every record that is
    a dict, is a time after the epoch. *)
Definition scores_after_epoch (r : gmap string rentry) : Prop :=
  (forall key z m s, r !! key = Some (RZSet z) -> In (m, s) z -> 0 <= s) /\
  (forall key d dl E,
     r !! key = Some (RString (Pickle (PDict d)) dl) ->
     dict_lookup "expires" d = Some (PTime E) -> 0 <= E).

(** ** A configuration and worlds to run the driver on *)

Definition sample_expire (now : Z) : Z := now + 86400.
Definition sample_str_of (_ : pyval) : string := "".

Definition sample_create : Z -> string -> loc -> M loc :=
  create_token sample_expire true "v2.0" "v3.0" sample_str_of.

(** An empty Redis; the caller holds one dict, at location 0. *)
Definition world_of (data : pydict) : world :=
  World ∅ {[ 0%nat := data ]} 0 false.

(** The index of user [u1] holding one member that is no pickle (the
    empty byte string), with a score far in the future. *)
Definition world_corrupt_index : world :=
  World {[ "keystone:user:u1" := RZSet [(Raw [], 4102444800)] ]} ∅ 0 false.

(** User [u1] creates [t1] and [t2] at instant 100, both expiring at 200,
    and then deletes [t2] at 110: the index of [u1] still lists [t2]. *)
Definition world_t1_t2 : world :=
  let data := [("expires", PTime 200); ("user", PDict [("id", PStr "u1")])] in
  let w1 := fst (sample_create 100 "t1" 0%nat (world_of data)) in
  fst (sample_create 100 "t2" 0%nat w1).

Definition world_t1_t2_deleted : world :=
  fst (delete_token sample_str_of 110 "t2" world_t1_t2).

(** User [u1] creates [t1], expiring at 200, and [t3], expiring at 300,
    both at instant 100. *)
Definition world_t1_t3 : world :=
  let data E := [("expires", PTime E); ("user_id", PStr "u1")] in
  let w1 := fst (sample_create 100 "t1" 0%nat (world_of (data 200))) in
  fst (sample_create 100 "t3" 2%nat
         (set_heap (<[2%nat := data 300]> (heap w1)) w1)).

(** The token whose id is [revoked], created at instant 100 and expiring
    at 200: its primary key is the key of the revocation list. *)
Definition world_token_revoked : world :=
  fst (sample_create 100 "revoked" 0%nat
         (world_of [("expires", PTime 200); ("user_id", PStr "u1")])).

(** Four tokens of user [u1], expiring at 200: [t1] of tenant [a] issued
    to the OAuth consumer [c1], [t2] of tenant [b], [t3] issued to the
    consumer [c2], and [t4] without a payload. *)
Definition oauth_payload (consumer : string) : pydict :=
  [("token_data",
    PDict [("token", PDict [("OS-OAUTH1", PDict [("consumer_id", PStr consumer)])])])].

Definition filter_record (tenant : string) (payload : pydict) : rentry :=
  RString
    (Pickle (PDict ([("expires", PTime 200); ("user_id", PStr "u1");
                     ("tenant_id", PStr tenant)] ++ payload)%list))
    200.

Definition world_filters : world :=
  World
    (<["keystone:user:u1" :=
         RZSet [(Pickle (PStr "t1"), 200); (Pickle (PStr "t2"), 200);
                (Pickle (PStr "t3"), 200); (Pickle (PStr "t4"), 200)]]>
       (<["keystone:token:t1" := filter_record "a" (oauth_payload "c1")]>
          (<["keystone:token:t2" := filter_record "b" (oauth_payload "c1")]>
             (<["keystone:token:t3" := filter_record "a" (oauth_payload "c2")]>
                (<["keystone:token:t4" := filter_record "a" []]> ∅)))))
    ∅ 0 false.

(** A token of [u1] whose payload is a string, not a dict. *)
Definition opaque_payload_data : pydict :=
  [("expires", PTime 200); ("user_id", PStr "u1"); ("token_data", PStr "opaque")].

(** The dict of a caller: no [expires], the user under [user]. *)
Definition caller_data : pydict :=
  [("id", PStr "t1"); ("user", PDict [("id", PStr "u1")])].

(** A dict with an expiry at 200 and its user, to create tokens from. *)
Definition data_200 : pydict :=
  [("expires", PTime 200); ("user_id", PStr "u1")].

(** A token of [u1] on a trust whose trustee is [u2], in the V3 format;
    and the same with a version that is neither V2 nor V3. *)
Definition trust_data (version : string) : pydict :=
  [("expires", PTime 200); ("user_id", PStr "u1"); ("trust_id", PStr "tr");
   ("token_version", PStr version);
   ("token_data",
    PDict [("OS-TRUST:trust", PDict [("trustee_user_id", PStr "u2")])])].

(** ** The candidates [list_tokens] keeps when no filter is given *)

(** The record of [token_id] is there at [now] and holds a true value. *)
Definition record_alive (str_of : pyval -> string) (now : Z)
    (r : gmap string rentry) (token_id : pyval) : bool :=
  match rlookup now (_get_key str_of "token" token_id) r with
  | Some (RString (Pickle v) _) => truthy v
  | _ => false
  end.

(** The key of [token_id] holds a pickle, or nothing that can be read. *)
Definition record_readable (str_of : pyval -> string) (now : Z)
    (r : gmap string rentry) (token_id : pyval) : Prop :=
  rlookup now (_get_key str_of "token" token_id) r = None \/
  exists v dl,
    rlookup now (_get_key str_of "token" token_id) r = Some (RString (Pickle v) dl).

(** ** The memcache client of the tests *)

(** [MemcacheClient] of [keystone/tests/test_backend_memcache.py]: a dict
    from keys to pairs of a value and a time. Values are held by value
    here, so [copy.deepcopy] is the identity: what the cache holds cannot
    be reached through a reference the caller keeps. Each method takes the
    instant [now] that [utils.unixtime(timeutils.utcnow())] gives it. *)
Module MemcacheClient.

Inductive error : Type :=
| MemcachedStringEncodingError   (* memcache.Client.MemcachedStringEncodingError *)
| TypeError.                     (* [+] on values that cannot be added *)

Inductive outcome (A : Type) : Type :=
| Return (a : A)
| Raised (e : error).
Arguments Return {A} a.
Arguments Raised {A} e.

Record client : Type := Client {
  cache : gmap string (pyval * Z);
  reject_cas : bool
}.

(** [MemcacheClient()] *)
Definition __init__ : client := Client ∅ false.

(** [self.cache.get(key)], [self.cache[key] = obj] and
    [del self.cache[key]]; the keys that reach them are [str]. *)
Definition cache_get (key : pyval) (c : client) : option (pyval * Z) :=
  match key with
  | PStr k => cache c !! k
  | _ => None
  end.

Definition cache_setitem (key : pyval) (obj : pyval * Z) (c : client) : client :=
  match key with
  | PStr k => Client (<[k := obj]> (cache c)) (reject_cas c)
  | _ => c
  end.

Definition cache_delitem (key : pyval) (c : client) : client :=
  match key with
  | PStr k => Client (delete k (cache c)) (reject_cas c)
  | _ => c
  end.

(** [a + b] *)
Definition py_add (a b : pyval) : outcome pyval :=
  match a, b with
  | PStr x, PStr y => Return (PStr (x ++ y))
  | PInt x, PInt y => Return (PInt (x + y))
  | _, _ => Raised TypeError
  end.

Definition check_key (key : pyval) : outcome unit :=
  match key with
  | PStr _ => Return tt
  | _ => Raised MemcachedStringEncodingError
  end.

Definition get (now : Z) (key : pyval) (c : client) : client * outcome pyval :=
  match check_key key with
  | Raised e => (c, Raised e)
  | Return _ =>
      match cache_get key c with
      | Some obj =>
          if (snd obj =? 0) || (now <? snd obj) then (c, Return (fst obj))
          else (c, Return PNone)
      | None => (c, Return PNone)
      end
  end.

Definition set (key value : pyval) (time : Z) (c : client)
  : client * outcome bool :=
  match check_key key with
  | Raised e => (c, Raised e)
  | Return _ => (cache_setitem key (value, time) c, Return true)
  end.

Definition add (now : Z) (key value : pyval) (c : client)
  : client * outcome bool :=
  match get now key c with
  | (c1, Raised e) => (c1, Raised e)
  | (c1, Return v) =>
      if truthy v then (c1, Return false) else set key value 0 c1
  end.

Definition append (now : Z) (key value : pyval) (c : client)
  : client * outcome bool :=
  match get now key c with
  | (c1, Raised e) => (c1, Raised e)
  | (c1, Return existing_value) =>
      if truthy existing_value then
        match py_add existing_value value with
        | Raised e => (c1, Raised e)
        | Return v =>
            match set key v 0 c1 with
            | (c2, Raised e) => (c2, Raised e)
            | (c2, Return _) => (c2, Return true)
            end
        end
      else (c1, Return false)
  end.

Definition gets (now : Z) (key : pyval) (c : client) : client * outcome pyval :=
  get now key c.

Definition cas (key value : pyval) (time : Z) (c : client)
  : client * outcome bool :=
  if reject_cas c then (c, Return false) else set key value time c.

Definition reset_cas (c : client) : client * outcome unit := (c, Return tt).

Definition delete (key : pyval) (c : client) : client * outcome unit :=
  match check_key key with
  | Raised e => (c, Raised e)
  | Return _ => (cache_delitem key c, Return tt)
  end.

End MemcacheClient.

(** * Properties *)

(** ** Values and their equality *)


Lemma pyval_eqb_eq (a b : pyval) : pyval_eqb a b = true <-> a = b.
Proof.
  revert b. induction a as [| n | s | t | kvs IH] using pyval_nested_ind;
    intros [| n' | s' | t' | kvs']; simpl; try (split; congruence).
  - rewrite Z.eqb_eq. split; congruence.
  - rewrite String.eqb_eq. split; congruence.
  - rewrite Z.eqb_eq. split; congruence.
  - revert kvs'. induction IH as [| [k v] r Hv _ IHr]; intros [| [k' v'] r'];
      try (split; congruence).
    simpl in Hv. specialize (IHr r'). specialize (Hv v').
    rewrite !andb_true_iff, String.eqb_eq. split.
    + intros [[-> Hvv] Hr]. apply Hv in Hvv. apply IHr in Hr. congruence.
    + intros E. injection E as -> -> ->. repeat split; trivial.
      * now apply Hv.
      * now apply IHr.
Qed.

Lemma pyval_eqb_refl (a : pyval) : pyval_eqb a a = true.
Proof. now apply pyval_eqb_eq. Qed.

Lemma rbytes_eqb_eq (a b : rbytes) : rbytes_eqb a b = true <-> a = b.
Proof.
  destruct a as [x | x], b as [y | y]; simpl; try (split; congruence).
  - rewrite pyval_eqb_eq. split; congruence.
  - rewrite bool_decide_eq_true. split; congruence.
Qed.

Lemma rbytes_eqb_refl (a : rbytes) : rbytes_eqb a a = true.
Proof. now apply rbytes_eqb_eq. Qed.

Lemma rbytes_eqb_neq (a b : rbytes) : rbytes_eqb a b = false <-> a <> b.
Proof.
  rewrite <- rbytes_eqb_eq. destruct (rbytes_eqb a b); split; congruence.
Qed.

(** ** Sorted sets *)

Lemma In_zrem (m : rbytes) (z : zset) (x : rbytes * Z) :
  In x (zrem m z) <-> In x z /\ fst x <> m.
Proof.
  unfold zrem. rewrite filter_In, negb_true_iff, rbytes_eqb_neq. tauto.
Qed.

Lemma In_zinsert (m : rbytes) (s : Z) (z : zset) (x : rbytes * Z) :
  In x (zinsert m s z) <-> x = (m, s) \/ In x z.
Proof.
  induction z as [| [m' s'] r IH]; simpl.
  - intuition congruence.
  - destruct (s <? s'); simpl; rewrite ?IH; intuition congruence.
Qed.

Lemma In_zset_add (m : rbytes) (s : Z) (z : zset) (x : rbytes * Z) :
  In x (zset_add m s z) <-> x = (m, s) \/ (fst x <> m /\ In x z).
Proof. unfold zset_add. rewrite In_zinsert, In_zrem. tauto. Qed.

Lemma In_zset_remrangebyscore (lo hi : Z) (z : zset) (x : rbytes * Z) :
  In x (zset_remrangebyscore lo hi z) <-> In x z /\ ~ (lo <= snd x <= hi).
Proof.
  unfold zset_remrangebyscore. rewrite filter_In, negb_true_iff, andb_false_iff.
  rewrite !Z.leb_gt. intuition lia.
Qed.

Lemma zset_range_all (z : zset) : zset_range 0 (-1) z = map fst z.
Proof.
  unfold zset_range. simpl.
  destruct z as [| x r]; [reflexivity |].
  set (n := Z.of_nat (length (x :: r))).
  assert (Hn : 1 <= n) by (unfold n; simpl length; lia).
  destruct (n + -1 <? 0) eqn:E; [apply Z.ltb_lt in E; lia |].
  change (Z.to_nat 0) with 0%nat. rewrite skipn_O.
  replace (Z.to_nat (n + -1 - 0 + 1)) with (length (x :: r)) by (unfold n; lia).
  now rewrite firstn_all.
Qed.

Lemma occurrences_zrem (m : rbytes) (z : zset) : occurrences m (zrem m z) = 0%nat.
Proof.
  unfold occurrences, zrem. induction z as [| [m' s'] r IH]; simpl; [reflexivity |].
  destruct (rbytes_eqb m' m) eqn:E; simpl; [assumption |].
  now rewrite E.
Qed.

Lemma occurrences_zinsert (m : rbytes) (s : Z) (z : zset) :
  occurrences m (zinsert m s z) = S (occurrences m z).
Proof.
  unfold occurrences. induction z as [| [m' s'] r IH]; simpl.
  - now rewrite rbytes_eqb_refl.
  - destruct (s <? s'); simpl.
    + now rewrite rbytes_eqb_refl.
    + destruct (rbytes_eqb m' m); simpl; now rewrite IH.
Qed.

Lemma occurrences_zset_add (m : rbytes) (s : Z) (z : zset) :
  occurrences m (zset_add m s z) = 1%nat.
Proof.
  unfold zset_add. now rewrite occurrences_zinsert, occurrences_zrem.
Qed.

Lemma map_loads_pickles (vs : list pyval) : map_loads (map Pickle vs) = Ok vs.
Proof. induction vs as [| v r IH]; simpl; [reflexivity | now rewrite IH]. Qed.

Lemma map_loads_Ok (l : list rbytes) (vs : list pyval) :
  map_loads l = Ok vs -> l = map Pickle vs.
Proof.
  revert vs. induction l as [| [v | bs] r IH]; intros vs; simpl.
  - intros [= <-]. reflexivity.
  - destruct (map_loads r) as [vs' | e]; [| discriminate].
    intros [= <-]. simpl. f_equal. now apply IH.
  - discriminate.
Qed.

Lemma map_loads_Raise (l : list rbytes) (e : exn) :
  map_loads l = Raise e -> e = UnpicklingError /\ exists bs, In (Raw bs) l.
Proof.
  induction l as [| [v | bs] r IH]; simpl.
  - discriminate.
  - destruct (map_loads r) as [vs' | e']; [discriminate |].
    intros [= <-]. destruct IH as [-> [bs Hbs]]; eauto.
  - intros [= <-]. eauto.
Qed.

Lemma map_loads_raw (l : list rbytes) (bs : list byte) :
  In (Raw bs) l -> map_loads l = Raise UnpicklingError.
Proof.
  intros Hin. destruct (map_loads l) as [vs | e] eqn:E.
  - apply map_loads_Ok in E. subst l. apply in_map_iff in Hin.
    destruct Hin as (v & Hv & _). discriminate.
  - apply map_loads_Raise in E. now destruct E as [-> _].
Qed.

(** ** The keyspace and the commands *)

Lemma bind_Ok {A B} (m : M A) (f : A -> M B) (w w' : world) (b : B) :
  bind m f w = (w', Ok b) ->
  exists w1 a, m w = (w1, Ok a) /\ f a w1 = (w', Ok b).
Proof.
  unfold bind. destruct (m w) as [w1 [a | e]]; [eauto | discriminate].
Qed.

Lemma bind_run {A B} (m : M A) (f : A -> M B) (w w1 : world) (a : A) :
  m w = (w1, Ok a) -> bind m f w = f a w1.
Proof. unfold bind. now intros ->. Qed.

Lemma bind_raise {A B} (m : M A) (f : A -> M B) (w w1 : world) (e : exn) :
  m w = (w1, Raise e) -> bind m f w = (w1, Raise e).
Proof. unfold bind. now intros ->. Qed.

Lemma zset_at_put_zset (now : Z) (key : string) (z : zset)
    (r : gmap string rentry) :
  zset_at now key (put_zset key z r) = Ok z.
Proof.
  unfold zset_at, rlookup, put_zset. destruct z as [| x z'].
  - now rewrite lookup_delete_eq.
  - now rewrite lookup_insert_eq.
Qed.

Lemma rlookup_put_zset_ne (now : Z) (key key' : string) (z : zset)
    (r : gmap string rentry) :
  key <> key' -> rlookup now key' (put_zset key z r) = rlookup now key' r.
Proof.
  intros Hne. unfold rlookup, put_zset. destruct z as [| x z'].
  - now rewrite lookup_delete_ne.
  - now rewrite lookup_insert_ne.
Qed.

(** What [_remove_expired] does to the set at its key. *)
Lemma remove_expired_run (now : Z) (key : string) (w : world) (z : zset) :
  zset_at now key (redis w) = Ok z ->
  exists w',
    _remove_expired now key w = (w', Ok tt) /\
    zset_at now key (redis w') = Ok (zset_remrangebyscore 0 now z) /\
    heap w' = heap w /\ bgsaves w' = bgsaves w /\
    forall key', key' <> key ->
      rlookup now key' (redis w') = rlookup now key' (redis w).
Proof.
  intros Hz. unfold _remove_expired, client_zremrangebyscore.
  assert (Hz' := Hz). unfold zset_at in Hz'.
  destruct (rlookup now key (redis w)) as [[v d | z0] |] eqn:E.
  - discriminate.
  - injection Hz' as ->. eexists. split; [reflexivity |].
    unfold set_redis; simpl. rewrite zset_at_put_zset. repeat split; trivial.
    intros key' Hne. now apply rlookup_put_zset_ne.
  - injection Hz' as <-. exists w. repeat split; trivial.
Qed.

Lemma remove_expired_inv (now : Z) (key : string) (w w' : world) (r : result unit) :
  _remove_expired now key w = (w', r) ->
  (exists z, zset_at now key (redis w) = Ok z /\ r = Ok tt) \/
  (zset_at now key (redis w) = Raise ResponseError /\ r = Raise ResponseError /\ w' = w).
Proof.
  unfold _remove_expired, client_zremrangebyscore, zset_at.
  destruct (rlookup now key (redis w)) as [[v d | z0] |]; intros [= <- <-]; eauto.
Qed.

Lemma zrange_run (now : Z) (key : string) (w : world) (z : zset) :
  zset_at now key (redis w) = Ok z ->
  _zrange now key 0 (-1) w = (w, map_loads (map fst z)).
Proof.
  intros Hz. unfold _zrange, client_zrange, bind, lift. rewrite Hz.
  now rewrite zset_range_all.
Qed.

Lemma zrange_wrongtype (now : Z) (key : string) (w : world) (e : exn) :
  zset_at now key (redis w) = Raise e ->
  _zrange now key 0 (-1) w = (w, Raise e).
Proof. intros Hz. unfold _zrange, client_zrange, bind. now rewrite Hz. Qed.

Lemma list_revoked_tokens_run (now : Z) (w : world) (z : zset) :
  zset_at now _revocation_list (redis w) = Ok z ->
  exists w',
    list_revoked_tokens now w
      = (w', map_loads (map fst (zset_remrangebyscore 0 now z))) /\
    zset_at now _revocation_list (redis w') = Ok (zset_remrangebyscore 0 now z).
Proof.
  intros Hz. destruct (remove_expired_run now _ w z Hz) as (w' & Hrun & Hz' & _).
  exists w'. split; [| assumption].
  unfold list_revoked_tokens. rewrite (bind_run _ _ _ _ _ Hrun).
  now apply zrange_run.
Qed.

Lemma list_tokens_run (str_of : pyval -> string) (now : Z) (user_id : string)
    (tenant_id trust_id consumer_id : option string) (w : world) (z : zset) :
  zset_at now (_get_key str_of "user" (PStr user_id)) (redis w) = Ok z ->
  exists w',
    list_tokens str_of now user_id tenant_id trust_id consumer_id w
      = match map_loads (map fst (zset_remrangebyscore 0 now z)) with
        | Ok user_tokens =>
            collect_tokens str_of now (arg tenant_id) (arg trust_id)
              (arg consumer_id) user_tokens w'
        | Raise e => (w', Raise e)
        end /\
    zset_at now (_get_key str_of "user" (PStr user_id)) (redis w')
      = Ok (zset_remrangebyscore 0 now z) /\
    heap w' = heap w /\ bgsaves w' = bgsaves w /\
    forall key', key' <> _get_key str_of "user" (PStr user_id) ->
      rlookup now key' (redis w') = rlookup now key' (redis w).
Proof.
  intros Hz.
  destruct (remove_expired_run now _ w z Hz) as (w' & Hrun & Hz' & Hh & Hb & Hk).
  exists w'. repeat split; trivial.
  unfold list_tokens. rewrite (bind_run _ _ _ _ _ Hrun).
  unfold bind at 1. rewrite (zrange_run _ _ _ _ Hz').
  now destruct (map_loads _).
Qed.

(** ** C2: the lazy prune of the read paths *)

(** On scores that are times after the epoch, the prune from 0 to now is
    the prune of everything up to now. *)
Lemma prune_from_zero_all (now : Z) (z : zset) (m : rbytes) (s : Z) :
  (forall m' s', In (m', s') z -> 0 <= s') ->
  In (m, s) (zset_remrangebyscore 0 now z) <-> In (m, s) z /\ now < s.
Proof.
  intros Hz. rewrite (In_zset_remrangebyscore 0 now z (m, s)). simpl.
  split.
  - intros [Hin Hs]. split; [exact Hin |]. specialize (Hz m s Hin). lia.
  - intros [Hin Hs]. split; [exact Hin | lia].
Qed.

(** C2: on both read paths the prune runs before the range read, the
    range read is over what the prune has left, and what is left is what
    the index holds afterwards. The prune is from score 0 to now; the
    scores of an index are expiry times after the epoch (see
    [driver_keeps_scores_after_epoch]), so it removes every entry whose
    score is at most the current time: an entry is left exactly when it
    was there and its score is in the future. *)
Theorem read_paths_prune_expired (str_of : pyval -> string) (now : Z)
    (w : world) :
  (forall z,
     zset_at now _revocation_list (redis w) = Ok z ->
     (forall m s, In (m, s) z -> 0 <= s) ->
     exists w' z',
       list_revoked_tokens now w = (w', map_loads (map fst z')) /\
       zset_at now _revocation_list (redis w') = Ok z' /\
       forall m s, In (m, s) z' <-> In (m, s) z /\ now < s) /\
  (forall user_id tenant_id trust_id consumer_id z,
     zset_at now (_get_key str_of "user" (PStr user_id)) (redis w) = Ok z ->
     (forall m s, In (m, s) z -> 0 <= s) ->
     exists w' z',
       list_tokens str_of now user_id tenant_id trust_id consumer_id w
         = match map_loads (map fst z') with
           | Ok user_tokens =>
               collect_tokens str_of now (arg tenant_id) (arg trust_id)
                 (arg consumer_id) user_tokens w'
           | Raise e => (w', Raise e)
           end /\
       zset_at now (_get_key str_of "user" (PStr user_id)) (redis w') = Ok z' /\
       forall m s, In (m, s) z' <-> In (m, s) z /\ now < s).
Proof.
  split.
  - intros z Hz Hpos.
    destruct (list_revoked_tokens_run now w z Hz) as (w' & H1 & H2).
    exists w', (zset_remrangebyscore 0 now z).
    split; [exact H1 |]. split; [exact H2 |].
    intros m s. now apply prune_from_zero_all.
  - intros user_id tenant_id trust_id consumer_id z Hz Hpos.
    destruct (list_tokens_run str_of now user_id tenant_id trust_id
                consumer_id w z Hz) as (w' & H1 & H2 & _).
    exists w', (zset_remrangebyscore 0 now z).
    split; [exact H1 |]. split; [exact H2 |].
    intros m s. now apply prune_from_zero_all.
Qed.

Lemma read_paths_prune_expired_witness :
  zset_at 200 (_get_key sample_str_of "user" (PStr "u1")) (redis world_t1_t3)
    = Ok [(Pickle (PStr "t1"), 200); (Pickle (PStr "t3"), 300)] /\
  exists w' z',
    list_tokens sample_str_of 200 "u1" None None None world_t1_t3
      = match map_loads (map fst z') with
        | Ok user_tokens =>
            collect_tokens sample_str_of 200 PNone PNone PNone user_tokens w'
        | Raise e => (w', Raise e)
        end /\
    zset_at 200 (_get_key sample_str_of "user" (PStr "u1")) (redis w') = Ok z' /\
    (In (Pickle (PStr "t3"), 300) z' /\ ~ In (Pickle (PStr "t1"), 200) z').
Proof.
  assert (Hz : zset_at 200 (_get_key sample_str_of "user" (PStr "u1"))
                 (redis world_t1_t3)
               = Ok [(Pickle (PStr "t1"), 200); (Pickle (PStr "t3"), 300)])
    by (vm_compute; reflexivity).
  split; [exact Hz |].
  destruct (read_paths_prune_expired sample_str_of 200 world_t1_t3) as (_ & H).
  destruct (H "u1" None None None _ Hz) as (w' & z' & H1 & H2 & H3).
  { intros m s [[= <- <-] | [[= <- <-] | []]]; lia. }
  exists w', z'. split; [exact H1 |]. split; [exact H2 |]. split.
  - apply H3. split; [right; now left | lia].
  - intros Hin. apply H3 in Hin. destruct Hin as [_ Hin]. lia.
Defined.

(** ** C6: decoding the members of an index *)

(** C6, as stated, fails: on an index whose only member is the empty byte
    string, the decode of the read path raises, and so does [list_tokens];
    neither returns an empty list. *)
Lemma malformed_member_raises :
  ~ (forall (now : Z) (key : string) (w : world) (bs : list byte) (s : Z),
        zset_at now key (redis w) = Ok [(Raw bs, s)] ->
        snd (_zrange now key 0 (-1) w) = Ok []) /\
  snd (_zrange 100 "keystone:user:u1" 0 (-1) world_corrupt_index)
    = Raise UnpicklingError /\
  snd (list_tokens sample_str_of 100 "u1" None None None world_corrupt_index)
    = Raise UnpicklingError.
Proof.
  split; [| split; vm_compute; reflexivity].
  intros H.
  specialize (H 100 "keystone:user:u1" world_corrupt_index [] 4102444800 eq_refl).
  vm_compute in H. discriminate.
Qed.

(** C6, amended: the decode of the read paths unpickles every member. When
    all of them are pickles it returns their values, in order; when one is
    not, it raises what [pickle.loads] raises, and [list_tokens] raises with
    it as soon as that member outlives the prune: there is no fallback to
    an empty list. *)
Theorem index_decode_raises_on_malformed (str_of : pyval -> string) (now : Z)
    (w : world) (user_id : string) (tenant_id trust_id consumer_id : option string)
    (z : zset) :
  let key := _get_key str_of "user" (PStr user_id) in
  zset_at now key (redis w) = Ok z ->
  (forall vs, map fst z = map Pickle vs ->
     _zrange now key 0 (-1) w = (w, Ok vs)) /\
  (forall bs s, In (Raw bs, s) z ->
     _zrange now key 0 (-1) w = (w, Raise UnpicklingError) /\
     (~ (0 <= s <= now) ->
      snd (list_tokens str_of now user_id tenant_id trust_id consumer_id w)
        = Raise UnpicklingError)).
Proof.
  intros key Hz. split.
  - intros vs Hvs. rewrite (zrange_run _ _ _ _ Hz), Hvs.
    now rewrite map_loads_pickles.
  - intros bs s Hin. split.
    + rewrite (zrange_run _ _ _ _ Hz). f_equal.
      apply (map_loads_raw _ bs). now apply (in_map fst) in Hin.
    + intros Hs.
      destruct (list_tokens_run str_of now user_id tenant_id trust_id
                  consumer_id w z Hz) as (w' & Hrun & _).
      rewrite Hrun.
      rewrite (map_loads_raw _ bs); [reflexivity |].
      apply (in_map fst (zset_remrangebyscore 0 now z) (Raw bs, s)).
      apply In_zset_remrangebyscore. now split.
Qed.

Lemma index_decode_raises_on_malformed_witness :
  _zrange 100 (_get_key sample_str_of "user" (PStr "u1")) 0 (-1) world_corrupt_index
    = (world_corrupt_index, Raise UnpicklingError) /\
  snd (list_tokens sample_str_of 100 "u1" None None None world_corrupt_index)
    = Raise UnpicklingError.
Proof.
  destruct (index_decode_raises_on_malformed sample_str_of 100 world_corrupt_index
              "u1" None None None [(Raw [], 4102444800)] eq_refl) as [_ H].
  destruct (H [] 4102444800 (or_introl eq_refl)) as [H1 H2].
  split; [exact H1 | apply H2; lia].
Defined.

(** ** Reading a primary record *)

Lemma get_absent (now : Z) (key : string) (w : world) :
  rlookup now key (redis w) = None -> _get now key w = (w, Ok PNone).
Proof. intros H. unfold _get, client_get, bind. now rewrite H. Qed.

Lemma get_pickle (now : Z) (key : string) (w : world) (v : pyval) (d : Z) :
  rlookup now key (redis w) = Some (RString (Pickle v) d) ->
  _get now key w = (w, Ok v).
Proof. intros H. unfold _get, client_get, bind. now rewrite H. Qed.

Lemma get_world {now : Z} {key : string} {w w' : world} {r : result pyval} :
  _get now key w = (w', r) -> w' = w.
Proof.
  unfold _get, client_get, bind, lift, ret, pickle_loads.
  destruct (rlookup now key (redis w)) as [[[v | bs] d | z] |];
    now intros [= <- _].
Qed.

(** [_get] yields a true value only for a live string that is the pickle
    of that value. *)
Lemma get_truthy (now : Z) (key : string) (w w' : world) (v : pyval) :
  _get now key w = (w', Ok v) -> truthy v = true ->
  exists d, rlookup now key (redis w) = Some (RString (Pickle v) d).
Proof.
  unfold _get, client_get, bind, lift, ret, pickle_loads.
  destruct (rlookup now key (redis w)) as [[[v0 | bs] d | z] |];
    intros [= _ <-]; [eauto | discriminate].
Qed.

Lemma rlookup_live (now : Z) (key : string) (r : gmap string rentry) (e : rentry) :
  rlookup now key r = Some e <-> r !! key = Some e /\ live now e = true.
Proof.
  unfold rlookup. destruct (r !! key) as [e0 |]; [| split; [| intros []]; discriminate].
  destruct (live now e0) eqn:E; split.
  - intros [= <-]. now split.
  - intros [[= <-] _]. reflexivity.
  - discriminate.
  - intros [[= <-] H]. congruence.
Qed.

Lemma get_key_token (str_of : pyval -> string) (token_id : string) :
  _get_key str_of "token" (PStr token_id) = ("keystone:token:" ++ token_id)%string.
Proof. reflexivity. Qed.

Lemma get_key_user_token_ne (str_of : pyval -> string) (a b : pyval) :
  _get_key str_of "user" a <> _get_key str_of "token" b.
Proof. unfold _get_key. simpl. discriminate. Qed.

Lemma get_key_user_revocation_ne (str_of : pyval -> string) (a : pyval) :
  _get_key str_of "user" a <> _revocation_list.
Proof. unfold _get_key, _revocation_list. simpl. discriminate. Qed.

(** ** The loop of [list_tokens] *)

Section Loop.
Variable str_of : pyval -> string.
Variable now : Z.
Variables tenant_id trust_id consumer_id : pyval.

Let keep := keep_token str_of now tenant_id trust_id consumer_id.
Let collect := collect_tokens str_of now tenant_id trust_id consumer_id.

(** The loop only reads. *)
Lemma keep_token_world (token_id : pyval) (w w' : world) (r : result bool) :
  keep token_id w = (w', r) -> w' = w.
Proof.
  unfold keep, keep_token, bind, lift, ret, try_except_KeyError.
  destruct (_get now _ w) as [w1 [td | e]] eqn:G; apply get_world in G; subst w1.
  2: now intros [= <- _].
  destruct (negb (truthy td)); [now intros [= <- _] |].
  destruct (truthy tenant_id).
  - destruct (py_get td "tenant_id") as [v | e]; [| now intros [= <- _]].
    destruct (negb (pyval_eqb v tenant_id)); [now intros [= <- _] |].
    destruct (truthy trust_id).
    + destruct (py_get td "trust_id") as [v' | e]; [| now intros [= <- _]].
      destruct (negb (pyval_eqb v' trust_id)); [now intros [= <- _] |].
      destruct (truthy consumer_id); [| now intros [= <- _]].
      destruct (consumer_differs td consumer_id) as [b | []]; now intros [= <- _].
    + destruct (truthy consumer_id); [| now intros [= <- _]].
      destruct (consumer_differs td consumer_id) as [b | []]; now intros [= <- _].
  - destruct (truthy trust_id).
    + destruct (py_get td "trust_id") as [v' | e]; [| now intros [= <- _]].
      destruct (negb (pyval_eqb v' trust_id)); [now intros [= <- _] |].
      destruct (truthy consumer_id); [| now intros [= <- _]].
      destruct (consumer_differs td consumer_id) as [b | []]; now intros [= <- _].
    + destruct (truthy consumer_id); [| now intros [= <- _]].
      destruct (consumer_differs td consumer_id) as [b | []]; now intros [= <- _].
Qed.

(** What one turn of the loop does with a candidate whose record is a
    non-empty dict. *)
Lemma keep_token_dict (token_id : pyval) (w : world) (d : pydict) (dl : Z) :
  rlookup now (_get_key str_of "token" token_id) (redis w)
    = Some (RString (Pickle (PDict d)) dl) ->
  d <> [] ->
  keep token_id w =
    (w,
     if truthy tenant_id && negb (pyval_eqb (dict_get "tenant_id" d) tenant_id)
     then Ok false
     else if truthy trust_id && negb (pyval_eqb (dict_get "trust_id" d) trust_id)
     then Ok false
     else if truthy consumer_id then
       match consumer_differs (PDict d) consumer_id with
       | Ok differs => Ok (negb differs)
       | Raise (KeyError _) => Ok false
       | Raise e => Raise e
       end
     else Ok true).
Proof.
  intros Hrec Hd.
  unfold keep, keep_token. rewrite (bind_run _ _ _ _ _ (get_pickle _ _ _ _ _ Hrec)).
  assert (Ht : truthy (PDict d) = true) by (destruct d; [congruence | reflexivity]).
  rewrite Ht. cbn [negb].
  unfold bind, lift, ret, try_except_KeyError. cbn [py_get].
  destruct (truthy tenant_id); simpl andb.
  - destruct (negb (pyval_eqb (dict_get "tenant_id" d) tenant_id)); [reflexivity |].
    destruct (truthy trust_id); simpl andb.
    + destruct (negb (pyval_eqb (dict_get "trust_id" d) trust_id)); [reflexivity |].
      destruct (truthy consumer_id); [| reflexivity].
      now destruct (consumer_differs (PDict d) consumer_id) as [b | []].
    + destruct (truthy consumer_id); [| reflexivity].
      now destruct (consumer_differs (PDict d) consumer_id) as [b | []].
  - destruct (truthy trust_id); simpl andb.
    + destruct (negb (pyval_eqb (dict_get "trust_id" d) trust_id)); [reflexivity |].
      destruct (truthy consumer_id); [| reflexivity].
      now destruct (consumer_differs (PDict d) consumer_id) as [b | []].
    + destruct (truthy consumer_id); [| reflexivity].
      now destruct (consumer_differs (PDict d) consumer_id) as [b | []].
Qed.

Lemma keep_token_absent (token_id : pyval) (w : world) :
  rlookup now (_get_key str_of "token" token_id) (redis w) = None ->
  keep token_id w = (w, Ok false).
Proof.
  intros H. unfold keep, keep_token.
  now rewrite (bind_run _ _ _ _ _ (get_absent _ _ _ H)).
Qed.

Lemma keep_token_true (token_id : pyval) (w w' : world) :
  keep token_id w = (w', Ok true) ->
  exists v dl,
    rlookup now (_get_key str_of "token" token_id) (redis w)
      = Some (RString (Pickle v) dl) /\ truthy v = true.
Proof.
  unfold keep, keep_token. intros H.
  unfold bind at 1 in H.
  destruct (_get now _ w) as [w1 [td | e]] eqn:G; [| discriminate].
  destruct (truthy td) eqn:T; [| discriminate].
  destruct (get_truthy _ _ _ _ _ G T) as [dl Hdl]. eauto.
Qed.

Lemma collect_cons (token_id : pyval) (rest : list pyval) (w : world) (b : bool) :
  keep token_id w = (w, Ok b) ->
  collect (token_id :: rest) w =
    match collect rest w with
    | (w', Ok tokens) => (w', Ok (if b then token_id :: tokens else tokens))
    | (w', Raise e) => (w', Raise e)
    end.
Proof.
  intros H. unfold collect. simpl. fold keep. fold collect.
  rewrite (bind_run _ _ _ _ _ H). unfold bind, ret.
  now destruct (collect rest w) as [w' [tokens | e]].
Qed.

Lemma collect_world (user_tokens : list pyval) (w w' : world)
    (r : result (list pyval)) :
  collect user_tokens w = (w', r) -> w' = w.
Proof.
  revert w' r. induction user_tokens as [| token_id rest IH]; intros w' r.
  - now intros [= <- _].
  - unfold collect. simpl. fold keep. fold collect. unfold bind at 1.
    destruct (keep token_id w) as [w1 [b | e]] eqn:K;
      apply keep_token_world in K; subst w1; [| now intros [= <- _]].
    unfold bind, ret. destruct (collect rest w) as [w2 [tokens | e]] eqn:C;
      intros [= <- _]; now apply (IH _ _ eq_refl).
Qed.

(** Every token id the loop returns was a candidate that it kept. *)
Lemma collect_kept (user_tokens tokens : list pyval) (w w' : world) :
  collect user_tokens w = (w', Ok tokens) ->
  forall token_id, In token_id tokens ->
    In token_id user_tokens /\ keep token_id w = (w, Ok true).
Proof.
  revert tokens w'. induction user_tokens as [| t rest IH]; intros tokens w'.
  - intros [= _ <-] token_id [].
  - unfold collect. simpl. fold keep. fold collect. unfold bind at 1.
    destruct (keep t w) as [w1 [b | e]] eqn:K; [| discriminate].
    assert (w1 = w) by now apply keep_token_world in K. subst w1.
    unfold bind, ret. destruct (collect rest w) as [w2 [tokens' | e]] eqn:C;
      [| discriminate].
    intros [= _ <-] token_id Hin.
    destruct b.
    + destruct Hin as [<- | Hin]; [split; [now left | assumption] |].
      destruct (IH _ _ eq_refl token_id Hin). split; [now right | assumption].
    + destruct (IH _ _ eq_refl token_id Hin). split; [now right | assumption].
Qed.
End Loop.

(** ** C3: [list_tokens] and the candidates whose record is absent *)

(** When the loop raises, a candidate has raised, and the key of that
    candidate holds something: a candidate whose key holds nothing, or a
    string past its deadline, is passed over. *)
Lemma collect_raise (str_of : pyval -> string) (now : Z)
    (tenant_id trust_id consumer_id : pyval) (user_tokens : list pyval)
    (w w' : world) (e : exn) :
  collect_tokens str_of now tenant_id trust_id consumer_id user_tokens w
    = (w', Raise e) ->
  exists token_id,
    In token_id user_tokens /\
    keep_token str_of now tenant_id trust_id consumer_id token_id w = (w, Raise e) /\
    rlookup now (_get_key str_of "token" token_id) (redis w) <> None.
Proof.
  revert w'. induction user_tokens as [| t rest IH]; intros w'; [discriminate |].
  simpl. unfold bind at 1.
  destruct (keep_token str_of now tenant_id trust_id consumer_id t w)
    as [w1 [b | x]] eqn:K.
  - assert (w1 = w) by now apply keep_token_world in K. subst w1.
    unfold bind, ret.
    destruct (collect_tokens str_of now tenant_id trust_id consumer_id rest w)
      as [w2 [tokens | x]] eqn:C; [discriminate |].
    intros [= _ <-]. destruct (IH _ eq_refl) as (id & Hin & Hk & Hp).
    exists id. split; [now right | now split].
  - assert (w1 = w) by now apply keep_token_world in K. subst w1.
    intros [= _ <-]. exists t. split; [now left |]. split; [exact K |].
    intros Habs. rewrite (keep_token_absent _ _ _ _ _ _ _ Habs) in K.
    discriminate.
Qed.

(** For every state in which the index of the user can be read,
    [list_tokens] returns only ids whose record is there when it is
    fetched (a live string, the pickle of a true value), and it raises only
    for a candidate whose key holds something: a candidate whose key is
    missing or past its deadline is neither returned nor the cause of an
    error. *)
Lemma list_tokens_absent_skipped (str_of : pyval -> string) (now : Z)
    (user_id : string) (tenant_id trust_id consumer_id : option string)
    (w : world) (z : zset) (ids : list pyval) :
  zset_at now (_get_key str_of "user" (PStr user_id)) (redis w) = Ok z ->
  map fst (zset_remrangebyscore 0 now z) = map pickle_dumps ids ->
  let run := list_tokens str_of now user_id tenant_id trust_id consumer_id w in
  (forall tokens, snd run = Ok tokens ->
     forall token_id, In token_id tokens ->
       In token_id ids /\
       exists v dl,
         rlookup now (_get_key str_of "token" token_id) (redis w)
           = Some (RString (Pickle v) dl) /\
         truthy v = true) /\
  (forall e, snd run = Raise e ->
     exists token_id,
       In token_id ids /\
       rlookup now (_get_key str_of "token" token_id) (redis w) <> None) /\
  ((forall token_id, In token_id ids ->
      rlookup now (_get_key str_of "token" token_id) (redis w) = None) ->
   snd run = Ok []).
Proof.
  intros Hz Hids run.
  destruct (list_tokens_run str_of now user_id tenant_id trust_id consumer_id
              w z Hz) as (w1 & Hrun & _ & _ & _ & Hother).
  assert (Hk : forall token_id,
             rlookup now (_get_key str_of "token" token_id) (redis w1)
             = rlookup now (_get_key str_of "token" token_id) (redis w)).
  { intros token_id. apply Hother. apply not_eq_sym, get_key_user_token_ne. }
  unfold run. rewrite Hrun, Hids. unfold pickle_dumps.
  rewrite map_loads_pickles.
  destruct (collect_tokens str_of now (arg tenant_id) (arg trust_id)
              (arg consumer_id) ids w1) as [w2 [tokens | x]] eqn:C.
  - assert (w2 = w1) by now apply collect_world in C. subst w2.
    simpl. split; [| split].
    + intros tokens' [= <-] token_id Hin.
      destruct (collect_kept _ _ _ _ _ _ _ _ _ C token_id Hin) as [Hcand Hkeep].
      split; [exact Hcand |].
      destruct (keep_token_true _ _ _ _ _ _ _ _ Hkeep) as (v & dl & Hrec & Hv).
      exists v, dl. rewrite <- Hk. now split.
    + discriminate.
    + intros Habs. f_equal. destruct tokens as [| t rest]; [reflexivity |].
      destruct (collect_kept _ _ _ _ _ _ _ _ _ C t (or_introl eq_refl))
        as [Hcand Hkeep].
      destruct (keep_token_true _ _ _ _ _ _ _ _ Hkeep) as (v & dl & Hrec & _).
      rewrite Hk, (Habs t Hcand) in Hrec. discriminate.
  - simpl. split; [| split].
    + discriminate.
    + intros e [= <-].
      destruct (collect_raise _ _ _ _ _ _ _ _ _ C) as (id & Hin & _ & Hp).
      exists id. split; [exact Hin |]. now rewrite <- Hk.
    + intros Habs.
      destruct (collect_raise _ _ _ _ _ _ _ _ _ C) as (id & Hin & _ & Hp).
      rewrite Hk, (Habs id Hin) in Hp. congruence.
Qed.

(** C3 fails on the token id [revoked]. The token is created at instant
    100 for user [u1], expiring at 200, and deleted at 110: its record is
    gone, the index of [u1] still lists it, and the key of the record is
    the key of the revocation list, which now holds a sorted set. The
    [list_tokens] of [u1] at 150 reads that key as a string, and the error
    of Redis comes out where the entry should be skipped. *)
Theorem deleted_revoked_entry_raises :
  let w := fst (delete_token sample_str_of 110 "revoked" world_token_revoked) in
  snd (delete_token sample_str_of 110 "revoked" world_token_revoked) = Ok tt /\
  zset_at 150 (_get_key sample_str_of "user" (PStr "u1")) (redis w)
    = Ok [(Pickle (PStr "revoked"), 200)] /\
  (exists z, redis w !! _get_key sample_str_of "token" (PStr "revoked")
             = Some (RZSet z)) /\
  list_tokens sample_str_of 150 "u1" None None None w = (w, Raise ResponseError).
Proof.
  intros w. split; [vm_compute; reflexivity |].
  split; [vm_compute; reflexivity |].
  split; [eexists; vm_compute; reflexivity |].
  vm_compute. reflexivity.
Qed.

(** ** C9: the filters of [list_tokens] *)

Lemma pyval_eqb_false (a b : pyval) : pyval_eqb a b = false <-> a <> b.
Proof.
  rewrite <- pyval_eqb_eq. destruct (pyval_eqb a b); split; congruence.
Qed.

Lemma consumer_differs_lacks (d : pydict) (c : pyval) :
  lacks_oauth d -> exists k, consumer_differs (PDict d) c = Raise (KeyError k).
Proof.
  unfold consumer_differs. simpl.
  intros [H | [(td & H1 & H2) | (td & tok & H1 & H2 & H3)]].
  - rewrite H. eauto.
  - rewrite H1. simpl. rewrite H2. eauto.
  - rewrite H1. simpl. rewrite H2. simpl. rewrite H3. eauto.
Qed.

Lemma consumer_differs_nested (d oauth : pydict) (c : pyval) :
  nested_oauth d oauth ->
  consumer_differs (PDict d) c
    = Ok (negb (pyval_eqb (dict_get "consumer_id" oauth) c)).
Proof.
  intros (td & tok & H1 & H2 & H3). unfold consumer_differs. simpl.
  rewrite H1. simpl. rewrite H2. simpl. now rewrite H3.
Qed.

Lemma nested_consumer_lacks (d : pydict) :
  lacks_oauth d -> nested_consumer d = None.
Proof.
  unfold nested_consumer.
  intros [H | [(td & H1 & H2) | (td & tok & H1 & H2 & H3)]].
  - now rewrite H.
  - now rewrite H1, H2.
  - now rewrite H1, H2, H3.
Qed.

Lemma nested_consumer_nested (d oauth : pydict) :
  nested_oauth d oauth -> nested_consumer d = Some (dict_get "consumer_id" oauth).
Proof.
  intros (td & tok & H1 & H2 & H3). unfold nested_consumer.
  now rewrite H1, H2, H3.
Qed.

(** One turn of the loop on a candidate whose record is absent or a dict
    that is well nested: the candidate is kept exactly when it is
    selected. *)
Lemma keep_token_selected (str_of : pyval -> string) (now : Z)
    (tenant_id trust_id consumer_id : option string) (token_id : pyval)
    (w : world) :
  rlookup now (_get_key str_of "token" token_id) (redis w) = None \/
  (exists d dl,
     rlookup now (_get_key str_of "token" token_id) (redis w)
       = Some (RString (Pickle (PDict d)) dl) /\
     (supplied consumer_id = true -> well_nested d)) ->
  keep_token str_of now (arg tenant_id) (arg trust_id) (arg consumer_id)
    token_id w
  = (w, Ok (token_selected str_of now (redis w) tenant_id trust_id consumer_id
              token_id)).
Proof.
  unfold token_selected.
  intros [Habs | (d & dl & Hrec & Hwn)].
  - rewrite Habs. now apply keep_token_absent.
  - rewrite Hrec. destruct d as [| kv d'].
    + unfold keep_token. now rewrite (bind_run _ _ _ _ _ (get_pickle _ _ _ _ _ Hrec)).
    + set (d := kv :: d') in *.
      rewrite (keep_token_dict str_of now _ _ _ token_id w d dl Hrec)
        by discriminate.
      f_equal. unfold record_selected, supplied in *.
      change (truthy (PDict d)) with true. cbn [andb].
      destruct (truthy (arg tenant_id)); cbn [negb orb andb].
      * destruct (pyval_eqb (dict_get "tenant_id" d) (arg tenant_id));
          cbn [negb andb]; [| reflexivity].
        destruct (truthy (arg trust_id)); cbn [negb orb andb].
        -- destruct (pyval_eqb (dict_get "trust_id" d) (arg trust_id));
             cbn [negb andb]; [| reflexivity].
           destruct (truthy (arg consumer_id)); cbn [negb orb]; [| reflexivity].
           destruct (Hwn eq_refl) as [Hl | [oauth Hn]].
           ++ destruct (consumer_differs_lacks d (arg consumer_id) Hl) as [k ->].
              now rewrite (nested_consumer_lacks d Hl).
           ++ rewrite (consumer_differs_nested _ _ _ Hn),
                (nested_consumer_nested _ _ Hn).
              now rewrite negb_involutive.
        -- destruct (truthy (arg consumer_id)); cbn [negb orb]; [| reflexivity].
           destruct (Hwn eq_refl) as [Hl | [oauth Hn]].
           ++ destruct (consumer_differs_lacks d (arg consumer_id) Hl) as [k ->].
              now rewrite (nested_consumer_lacks d Hl).
           ++ rewrite (consumer_differs_nested _ _ _ Hn),
                (nested_consumer_nested _ _ Hn).
              now rewrite negb_involutive.
      * destruct (truthy (arg trust_id)); cbn [negb orb andb].
        -- destruct (pyval_eqb (dict_get "trust_id" d) (arg trust_id));
             cbn [negb andb]; [| reflexivity].
           destruct (truthy (arg consumer_id)); cbn [negb orb]; [| reflexivity].
           destruct (Hwn eq_refl) as [Hl | [oauth Hn]].
           ++ destruct (consumer_differs_lacks d (arg consumer_id) Hl) as [k ->].
              now rewrite (nested_consumer_lacks d Hl).
           ++ rewrite (consumer_differs_nested _ _ _ Hn),
                (nested_consumer_nested _ _ Hn).
              now rewrite negb_involutive.
        -- destruct (truthy (arg consumer_id)); cbn [negb orb]; [| reflexivity].
           destruct (Hwn eq_refl) as [Hl | [oauth Hn]].
           ++ destruct (consumer_differs_lacks d (arg consumer_id) Hl) as [k ->].
              now rewrite (nested_consumer_lacks d Hl).
           ++ rewrite (consumer_differs_nested _ _ _ Hn),
                (nested_consumer_nested _ _ Hn).
              now rewrite negb_involutive.
Qed.

(** The loop over candidates that each pass or fail without an error. *)
Lemma collect_filter (str_of : pyval -> string) (now : Z)
    (tenant_id trust_id consumer_id : pyval) (f : pyval -> bool)
    (user_tokens : list pyval) (w : world) :
  (forall token_id, In token_id user_tokens ->
     keep_token str_of now tenant_id trust_id consumer_id token_id w
     = (w, Ok (f token_id))) ->
  collect_tokens str_of now tenant_id trust_id consumer_id user_tokens w
  = (w, Ok (List.filter f user_tokens)).
Proof.
  induction user_tokens as [| t rest IH]; intros Hall; [reflexivity |].
  rewrite (collect_cons _ _ _ _ _ _ _ _ _ (Hall t (or_introl eq_refl))).
  rewrite IH by (intros x Hx; apply Hall; now right).
  simpl. now destruct (f t).
Qed.

(** C9, as stated, fails on a record whose payload is not a dict. The
    token [t1] of user [u1] is created with the string [opaque] as its
    [token_data]: the record lacks the nested OAuth structure, and a
    [list_tokens] with a consumer id raises [TypeError] where the
    candidate should be skipped. *)
Lemma opaque_payload_raises :
  let w := fst (sample_create 100 "t1" 0%nat (world_of opaque_payload_data)) in
  snd (sample_create 100 "t1" 0%nat (world_of opaque_payload_data)) = Ok 1%nat /\
  (forall oauth, ~ nested_oauth opaque_payload_data oauth) /\
  snd (list_tokens sample_str_of 150 "u1" None None (Some "c1") w)
  = Raise TypeError.
Proof.
  intros w. split; [vm_compute; reflexivity |]. split.
  - intros oauth (td & tok & H & _). discriminate.
  - vm_compute. reflexivity.
Qed.

(** C9, amended: on an index of pickled ids whose candidates have no
    record, or a dict for a record that is well nested when a consumer id
    is supplied, [list_tokens] returns, in the order of the index, exactly
    the candidates that are selected: the record is there, its [tenant_id]
    and [trust_id] equal the supplied ones, and, for a supplied consumer
    id, the nested OAuth structure is there and its consumer id equals the
    supplied one. A candidate whose tenant or trust differs, whose record
    lacks a key on the way to the structure, or whose nested consumer id
    differs, is skipped, and nothing is raised. *)
Theorem list_tokens_filters_exact (str_of : pyval -> string) (now : Z)
    (user_id : string) (tenant_id trust_id consumer_id : option string)
    (w : world) (z : zset) (ids : list pyval) :
  zset_at now (_get_key str_of "user" (PStr user_id)) (redis w) = Ok z ->
  map fst (zset_remrangebyscore 0 now z) = map pickle_dumps ids ->
  (forall token_id, In token_id ids ->
     rlookup now (_get_key str_of "token" token_id) (redis w) = None \/
     (exists d dl,
        rlookup now (_get_key str_of "token" token_id) (redis w)
          = Some (RString (Pickle (PDict d)) dl) /\
        (supplied consumer_id = true -> well_nested d))) ->
  snd (list_tokens str_of now user_id tenant_id trust_id consumer_id w)
  = Ok (List.filter
          (token_selected str_of now (redis w) tenant_id trust_id consumer_id)
          ids).
Proof.
  intros Hz Hids Hall.
  destruct (list_tokens_run str_of now user_id tenant_id trust_id consumer_id
              w z Hz) as (w1 & Hrun & _ & _ & _ & Hother).
  assert (Hk : forall token_id,
             rlookup now (_get_key str_of "token" token_id) (redis w1)
             = rlookup now (_get_key str_of "token" token_id) (redis w)).
  { intros token_id. apply Hother. apply not_eq_sym, get_key_user_token_ne. }
  rewrite Hrun, Hids. unfold pickle_dumps. rewrite map_loads_pickles.
  rewrite (collect_filter str_of now _ _ _
             (token_selected str_of now (redis w) tenant_id trust_id consumer_id)).
  - reflexivity.
  - intros token_id Hin.
    rewrite (keep_token_selected str_of now tenant_id trust_id consumer_id
               token_id w1).
    + unfold token_selected. now rewrite Hk.
    + rewrite Hk. exact (Hall token_id Hin).
Qed.

Lemma list_tokens_filters_exact_witness :
  snd (list_tokens sample_str_of 150 "u1" (Some "a") None (Some "c1")
         world_filters)
  = Ok [PStr "t1"].
Proof.
  assert (Hz : zset_at 150 (_get_key sample_str_of "user" (PStr "u1"))
                 (redis world_filters)
               = Ok [(Pickle (PStr "t1"), 200); (Pickle (PStr "t2"), 200);
                     (Pickle (PStr "t3"), 200); (Pickle (PStr "t4"), 200)])
    by (vm_compute; reflexivity).
  rewrite (list_tokens_filters_exact sample_str_of 150 "u1" (Some "a") None
             (Some "c1") world_filters _
             [PStr "t1"; PStr "t2"; PStr "t3"; PStr "t4"] Hz eq_refl).
  - vm_compute. reflexivity.
  - intros token_id [<- | [<- | [<- | [<- | []]]]]; right.
    + eexists _, _. split; [vm_compute; reflexivity |]. intros _. right.
      eexists. eexists _, _. repeat split.
    + eexists _, _. split; [vm_compute; reflexivity |]. intros _. right.
      eexists. eexists _, _. repeat split.
    + eexists _, _. split; [vm_compute; reflexivity |]. intros _. right.
      eexists. eexists _, _. repeat split.
    + eexists _, _. split; [vm_compute; reflexivity |]. intros _. left.
      left. reflexivity.
Defined.

(** ** [get_token] and [delete_token] *)

Lemma truthy_str (s : string) : truthy (PStr s) = true <-> s <> "".
Proof.
  simpl. rewrite negb_true_iff. destruct (String.eqb_spec s ""); split; congruence.
Qed.

Lemma get_token_present (str_of : pyval -> string) (now : Z) (token_id : string)
    (w : world) (v : pyval) (dl : Z) :
  token_id <> "" ->
  rlookup now (_get_key str_of "token" (PStr token_id)) (redis w)
    = Some (RString (Pickle v) dl) ->
  truthy v = true ->
  get_token str_of now token_id w = (w, Ok v).
Proof.
  intros Hid Hrec Hv. unfold get_token.
  apply truthy_str in Hid. rewrite Hid. cbn [negb].
  rewrite (bind_run _ _ _ _ _ (get_pickle _ _ _ _ _ Hrec)).
  now rewrite Hv.
Qed.

Lemma get_token_absent (str_of : pyval -> string) (now : Z) (token_id : string)
    (w : world) :
  rlookup now (_get_key str_of "token" (PStr token_id)) (redis w) = None ->
  get_token str_of now token_id w = (w, Raise (TokenNotFound token_id)).
Proof.
  intros Hrec. unfold get_token.
  destruct (truthy (PStr token_id)) eqn:T; cbn [negb].
  - now rewrite (bind_run _ _ _ _ _ (get_absent _ _ _ Hrec)).
  - simpl in T. apply negb_false_iff, String.eqb_eq in T. now subst.
Qed.

Lemma get_token_empty (str_of : pyval -> string) (now : Z) (w : world) :
  get_token str_of now "" w = (w, Raise (TokenNotFound "")).
Proof. reflexivity. Qed.

Lemma get_token_Ok (str_of : pyval -> string) (now : Z) (token_id : string)
    (w w' : world) (v : pyval) :
  get_token str_of now token_id w = (w', Ok v) ->
  w' = w /\ token_id <> "" /\ truthy v = true /\
  exists dl,
    rlookup now (_get_key str_of "token" (PStr token_id)) (redis w)
      = Some (RString (Pickle v) dl).
Proof.
  unfold get_token. destruct (truthy (PStr token_id)) eqn:T; cbn [negb];
    [| discriminate].
  intros H. unfold bind in H.
  destruct (_get now _ w) as [w1 [v0 | e]] eqn:G; [| discriminate].
  destruct (truthy v0) eqn:Tv; [| discriminate].
  injection H as <- <-.
  assert (w1 = w) by now apply get_world in G. subst w1.
  repeat split; trivial.
  - now apply truthy_str.
  - now apply (get_truthy _ _ _ _ _ G).
Qed.

(** A successful [delete_token], step by step. *)
Lemma delete_token_Ok (str_of : pyval -> string) (now : Z) (token_id : string)
    (w w' : world) :
  delete_token str_of now token_id w = (w', Ok tt) ->
  let key := _get_key str_of "token" (PStr token_id) in
  token_id <> "" /\
  exists data dl E z,
    rlookup now key (redis w) = Some (RString (Pickle data) dl) /\
    truthy data = true /\
    py_getitem data "expires" = Ok (PTime E) /\
    zset_at now _revocation_list (delete key (redis w)) = Ok z /\
    saving w = false /\
    w' = World (<[_revocation_list := RZSet (zset_add (Pickle data) E z)]>
                  (delete key (redis w)))
               (heap w) (S (bgsaves w)) true.
Proof.
  intros H key. unfold delete_token in H.
  apply bind_Ok in H. destruct H as (w1 & data & Hget & H).
  apply get_token_Ok in Hget. destruct Hget as (-> & Hid & Hdata & dl & Hrec).
  split; [assumption |].
  unfold bind, client_delete, lift, _zadd, client_zadd, client_bgsave in H.
  fold key in H. simpl in H.
  destruct (py_getitem data "expires") as [e |] eqn:He; [| discriminate].
  destruct (_to_timestamp e) as [E |] eqn:Hts; [| discriminate].
  destruct e; try discriminate. injection Hts as ->.
  destruct (zset_at now _revocation_list (delete key (redis w))) as [z |] eqn:Hz;
    [| discriminate].
  simpl in H. destruct (saving w) eqn:Hs; [discriminate |].
  injection H as <-.
  exists data, dl, E, z. repeat split; trivial.
Qed.

(** ** C5: [delete_token] is not idempotent *)

(** Deleting a token whose primary record is absent (never created,
    deleted, expired, or the empty id) raises [TokenNotFound] and changes
    nothing: no DEL is issued, nothing is added to the revocation list, no
    save is requested. *)
Lemma delete_token_absent (str_of : pyval -> string) (now : Z)
    (token_id : string) (w : world) :
  rlookup now (_get_key str_of "token" (PStr token_id)) (redis w) = None ->
  delete_token str_of now token_id w = (w, Raise (TokenNotFound token_id)).
Proof.
  intros H. unfold delete_token.
  now rewrite (bind_raise _ _ _ _ _ (get_token_absent _ _ _ _ H)).
Qed.

(** After a successful [delete_token], a second one raises
    [TokenNotFound] and changes nothing, whenever it is run, unless the
    primary key of the token is the key of the revocation list. *)
Lemma delete_token_not_idempotent (str_of : pyval -> string) (now now' : Z)
    (token_id : string) (w w' : world) :
  _get_key str_of "token" (PStr token_id) <> _revocation_list ->
  delete_token str_of now token_id w = (w', Ok tt) ->
  delete_token str_of now' token_id w' = (w', Raise (TokenNotFound token_id)).
Proof.
  intros Hkey Hdel. apply delete_token_Ok in Hdel.
  destruct Hdel as (_ & data & dl & E & z & _ & _ & _ & _ & _ & ->).
  apply delete_token_absent. unfold rlookup. simpl.
  rewrite lookup_insert_ne by congruence. now rewrite lookup_delete_eq.
Qed.

Lemma delete_token_not_idempotent_witness :
  delete_token sample_str_of 120 "t2" world_t1_t2_deleted
    = (world_t1_t2_deleted, Raise (TokenNotFound "t2")).
Proof.
  apply (delete_token_not_idempotent sample_str_of 110 120 "t2" world_t1_t2).
  - vm_compute. discriminate.
  - vm_compute. reflexivity.
Defined.

(** C5 on the token id [revoked]: the first [delete_token] succeeds and
    leaves the revocation list, a sorted set, under the primary key of the
    token; the second one reads that key as a string, and the error of
    Redis comes out instead of [TokenNotFound]. *)
Theorem delete_revoked_twice_wrongtype :
  _get_key sample_str_of "token" (PStr "revoked") = _revocation_list /\
  snd (delete_token sample_str_of 110 "revoked" world_token_revoked) = Ok tt /\
  snd (delete_token sample_str_of 120 "revoked"
         (fst (delete_token sample_str_of 110 "revoked" world_token_revoked)))
    = Raise ResponseError.
Proof. repeat split; vm_compute; reflexivity. Qed.

(** ** C4: the revocation list *)





(** ** [create_token], step by step *)

Section Steps.
Variables (r : gmap string rentry) (h : gmap nat pydict) (b : nat) (sv : bool).

Lemma deepcopy_run (data : loc) (d : pydict) :
  h !! data = Some d ->
  deepcopy data (World r h b sv)
    = (World r (<[fresh (dom h) := d]> h) b sv, Ok (fresh (dom h))).
Proof. intros H. unfold deepcopy. simpl. now rewrite H. Qed.

Lemma load_run (l : loc) (d : pydict) :
  load l (World r (<[l := d]> h) b sv) = (World r (<[l := d]> h) b sv, Ok d).
Proof. unfold load. simpl. now rewrite lookup_insert_eq. Qed.

Lemma setitem_run (l : loc) (d : pydict) (k : string) (v : pyval) :
  setitem l k v (World r (<[l := d]> h) b sv)
    = (World r (<[l := dict_setitem k v d]> h) b sv, Ok tt).
Proof.
  unfold setitem, set_heap. simpl.
  now rewrite lookup_insert_eq, insert_insert_eq.
Qed.

Lemma setdefault_expires_run (default_expire_time : Z -> Z) (now : Z)
    (l : loc) (d : pydict) :
  setdefault l "expires" (PTime (default_expire_time now))
    (World r (<[l := d]> h) b sv)
    = (World r (<[l := with_expires default_expire_time now d]> h) b sv,
       Ok (expires_of default_expire_time now d)).
Proof.
  unfold setdefault, set_heap, with_expires, expires_of. simpl.
  rewrite lookup_insert_eq.
  destruct (dict_lookup "expires" d); [reflexivity |].
  now rewrite insert_insert_eq.
Qed.

Lemma zadd_run (now : Z) (key : string) (score : Z) (value : pyval) :
  _zadd now key score value (World r h b sv)
    = match zadd_at now key (Pickle value) score r with
      | Ok r' => (World r' h b sv, Ok tt)
      | Raise e => (World r h b sv, Raise e)
      end.
Proof.
  unfold _zadd, client_zadd, zadd_at, pickle_dumps. simpl.
  now destruct (zset_at now key r).
Qed.
End Steps.

Lemma fresh_loc_new (h : gmap nat pydict) : h !! fresh (dom h) = None.
Proof. apply not_elem_of_dom. apply is_fresh. Qed.

(** The steps of [create_token] from the first ZADD on. *)
Ltac create_tail :=
  unfold bind at 1; unfold lift at 1; unfold bind at 1; rewrite zadd_run;
  match goal with
  | |- context [zadd_at ?n ?k ?m ?s ?r] =>
      destruct (zadd_at n k m s r); [| reflexivity]
  end;
  unfold bind at 1;
  match goal with
  | |- context [?t && truthy ?v] => destruct (t && truthy v); [| reflexivity]
  end;
  unfold bind at 1; unfold lift at 1;
  match goal with
  | |- context [trustee_of ?a ?b ?d] =>
      destruct (trustee_of a b d); [| reflexivity]
  end;
  unfold bind at 1; unfold lift at 1; rewrite zadd_run;
  match goal with
  | |- context [zadd_at ?n ?k ?m ?s ?r] =>
      destruct (zadd_at n k m s r); reflexivity
  end.

Section CreateToken.
Variable default_expire_time : Z -> Z.
Variable trust_enabled : bool.
Variables V2 V3 : string.
Variable str_of : pyval -> string.

Let create := create_token default_expire_time trust_enabled V2 V3 str_of.
Let key_of := _get_key str_of.

(** The outcome of [create_token] on the dict [d0] of the caller. *)
Lemma create_token_run (now : Z) (token_id : string) (data : loc)
    (r : gmap string rentry) (h : gmap nat pydict) (b : nat) (sv : bool)
    (d0 : pydict) :
  h !! data = Some d0 ->
  let l := fresh (dom h) in
  let e := expires_of default_expire_time now d0 in
  let d1 := with_expires default_expire_time now d0 in
  create now token_id data (World r h b sv) =
    match with_user_id d1 with
    | Raise x => (World r (<[l := d1]> h) b sv, Raise x)
    | Ok d2 =>
        let h' := <[l := d2]> h in
        match e with
        | PTime E =>
            if E - now <=? 0 then (World r h' b sv, Raise ResponseError)
            else
            let r1 := <[key_of "token" (PStr token_id)
                        := RString (Pickle (PDict d2)) (now + (E - now))]> r in
            match zadd_at now (key_of "user" (dict_get "user_id" d2))
                    (Pickle (PStr token_id)) E r1 with
            | Raise x => (World r1 h' b sv, Raise x)
            | Ok r2 =>
                if trust_enabled && truthy (dict_get "trust_id" d2) then
                  match trustee_of V2 V3 d2 with
                  | Raise x => (World r2 h' b sv, Raise x)
                  | Ok trustee =>
                      match zadd_at now (key_of "user" trustee)
                              (Pickle (PStr token_id)) E r2 with
                      | Raise x => (World r2 h' b sv, Raise x)
                      | Ok r3 => (World r3 h' b sv, Ok l)
                      end
                  end
                else (World r2 h' b sv, Ok l)
            end
        | _ => (World r h' b sv, Raise TypeError)
        end
    end.
Proof.
  intros Hd l e d1. unfold create, create_token, key_of.
  rewrite (bind_run _ _ _ _ _ (deepcopy_run r h b sv data d0 Hd)). fold l.
  rewrite (bind_run _ _ _ _ _
             (setdefault_expires_run r h b sv default_expire_time now l d0)).
  fold e d1.
  rewrite (bind_run _ _ _ _ _ (load_run r h b sv l d1)).
  unfold with_user_id.
  destruct (negb (truthy (dict_get "user_id" d1))) eqn:Hu.
  - unfold bind at 1. unfold bind at 1. unfold lift at 1.
    destruct (py_getitem (PDict d1) "user") as [user | x]; [| reflexivity].
    unfold bind at 1. unfold lift at 1.
    destruct (py_getitem user "id") as [id | x]; [| reflexivity].
    rewrite setitem_run.
    rewrite (bind_run _ _ _ _ _ (load_run r h b sv l _)).
    unfold bind at 1. unfold lift at 1.
    destruct e as [| n | s | E | kvs]; try reflexivity.
    cbn [py_sub]. unfold _set, client_setex, set_redis, pickle_dumps.
    unfold bind at 1.
    destruct (E - now <=? 0); [reflexivity |].
    cbn [redis heap bgsaves saving lift _to_timestamp].
    create_tail.
  - unfold bind at 1. unfold ret at 1.
    rewrite (bind_run _ _ _ _ _ (load_run r h b sv l _)).
    unfold bind at 1. unfold lift at 1.
    destruct e as [| n | s | E | kvs]; try reflexivity.
    cbn [py_sub]. unfold _set, client_setex, set_redis, pickle_dumps.
    unfold bind at 1.
    destruct (E - now <=? 0); [reflexivity |].
    cbn [redis heap bgsaves saving lift _to_timestamp].
    create_tail.
Qed.
End CreateToken.

(** ** Dicts *)

Lemma dict_lookup_setitem_eq (k : string) (v : pyval) (d : pydict) :
  dict_lookup k (dict_setitem k v d) = Some v.
Proof.
  induction d as [| [k' v'] r IH]; simpl.
  - now rewrite String.eqb_refl.
  - destruct (String.eqb k k') eqn:E; simpl; rewrite E; [reflexivity | exact IH].
Qed.

Lemma dict_lookup_setitem_ne (k k0 : string) (v : pyval) (d : pydict) :
  k0 <> k -> dict_lookup k0 (dict_setitem k v d) = dict_lookup k0 d.
Proof.
  intros Hne. induction d as [| [k' v'] r IH]; simpl.
  - apply String.eqb_neq in Hne. now rewrite Hne.
  - destruct (String.eqb k k') eqn:E; simpl.
    + apply String.eqb_eq in E. subst k'.
      apply String.eqb_neq in Hne. now rewrite Hne.
    + now rewrite IH.
Qed.

Lemma with_expires_lookup (default_expire_time : Z -> Z) (now : Z) (d : pydict) :
  dict_lookup "expires" (with_expires default_expire_time now d)
    = Some (expires_of default_expire_time now d).
Proof.
  unfold with_expires, expires_of.
  destruct (dict_lookup "expires" d) eqn:E; [exact E |].
  apply dict_lookup_setitem_eq.
Qed.

Lemma with_expires_other (default_expire_time : Z -> Z) (now : Z) (d : pydict)
    (k : string) :
  k <> "expires" ->
  dict_lookup k (with_expires default_expire_time now d) = dict_lookup k d.
Proof.
  intros Hk. unfold with_expires.
  destruct (dict_lookup "expires" d); [reflexivity |].
  now apply dict_lookup_setitem_ne.
Qed.

Lemma with_user_id_other (d d' : pydict) (k : string) :
  with_user_id d = Ok d' -> k <> "user_id" ->
  dict_lookup k d' = dict_lookup k d.
Proof.
  unfold with_user_id. intros H Hk.
  destruct (negb (truthy (dict_get "user_id" d))).
  - destruct (py_getitem (PDict d) "user") as [user |]; [| discriminate].
    destruct (py_getitem user "id") as [id |]; [| discriminate].
    injection H as <-. now apply dict_lookup_setitem_ne.
  - now injection H as <-.
Qed.

Lemma zadd_at_Ok (now : Z) (key : string) (m : rbytes) (s : Z)
    (r r' : gmap string rentry) :
  zadd_at now key m s r = Ok r' ->
  exists z, zset_at now key r = Ok z /\ r' = <[key := RZSet (zset_add m s z)]> r.
Proof.
  unfold zadd_at. destruct (zset_at now key r) as [z |]; [| discriminate].
  intros [= <-]. eauto.
Qed.

Lemma zset_at_insert_zset (t : Z) (key : string) (z : zset)
    (r : gmap string rentry) :
  zset_at t key (<[key := RZSet z]> r) = Ok z.
Proof. unfold zset_at, rlookup. now rewrite lookup_insert_eq. Qed.

Lemma zset_at_insert_ne (t : Z) (key key' : string) (e : rentry)
    (r : gmap string rentry) :
  key <> key' -> zset_at t key' (<[key := e]> r) = zset_at t key' r.
Proof. intros H. unfold zset_at, rlookup. now rewrite lookup_insert_ne. Qed.

(** ** C10: [create_token] leaves the dict of the caller alone *)

(** C10: whatever [create_token] returns or raises, the dict passed in is
    afterwards what it was before, and so is every other dict the caller
    holds; the defaulted [expires] and the derived [user_id] are written to
    a new dict, which is the one stored and returned. *)
Theorem create_token_keeps_argument (default_expire_time : Z -> Z)
    (trust_enabled : bool) (V2 V3 : string) (str_of : pyval -> string)
    (now : Z) (token_id : string) (data : loc) (w w' : world)
    (res : result loc) (d0 : pydict) :
  heap w !! data = Some d0 ->
  create_token default_expire_time trust_enabled V2 V3 str_of now token_id data w
    = (w', res) ->
  heap w' !! data = Some d0 /\
  (forall l0, is_Some (heap w !! l0) -> heap w' !! l0 = heap w !! l0) /\
  (forall l, res = Ok l ->
     l <> data /\ heap w !! l = None /\
     exists d,
       heap w' !! l = Some d /\
       with_user_id (with_expires default_expire_time now d0) = Ok d /\
       redis w' !! _get_key str_of "token" (PStr token_id)
         = match expires_of default_expire_time now d0 with
           | PTime E => Some (RString (Pickle (PDict d)) (now + (E - now)))
           | _ => None
           end).
Proof.
  intros Hd Hrun. destruct w as [r h b sv]. simpl in Hd |- *.
  rewrite (create_token_run default_expire_time trust_enabled V2 V3 str_of now
             token_id data r h b sv d0 Hd) in Hrun.
  cbv zeta in Hrun.
  set (l := fresh (dom h)) in *.
  assert (Hl : h !! l = None) by apply fresh_loc_new.
  assert (Hne : l <> data) by congruence.
  assert (Hframe : forall d (l0 : nat),
             is_Some (h !! l0) -> (<[l := d]> h) !! l0 = h !! l0).
  { intros d l0 [x Hx]. apply lookup_insert_ne. congruence. }
  assert (Hkeys : forall a (e1 : rentry) (r0 : gmap string rentry),
             (<[_get_key str_of "user" a := e1]> r0)
               !! _get_key str_of "token" (PStr token_id)
             = r0 !! _get_key str_of "token" (PStr token_id)).
  { intros a e1 r0. apply lookup_insert_ne. apply get_key_user_token_ne. }
  assert (Hfail : forall r' d x,
             (World r' (<[l := d]> h) b sv, @Raise loc x) = (w', res) ->
             heap w' !! data = Some d0 /\
             (forall l0, is_Some (h !! l0) -> heap w' !! l0 = h !! l0) /\
             (forall l1, res = Ok l1 ->
                l1 <> data /\ h !! l1 = None /\
                exists d',
                  heap w' !! l1 = Some d' /\
                  with_user_id (with_expires default_expire_time now d0) = Ok d' /\
                  redis w' !! _get_key str_of "token" (PStr token_id)
                    = match expires_of default_expire_time now d0 with
                      | PTime E => Some (RString (Pickle (PDict d')) (now + (E - now)))
                      | _ => None
                      end)).
  { intros r' d x [= <- <-]. simpl. split; [| split].
    - rewrite Hframe; eauto.
    - intros l0 H0. now apply Hframe.
    - discriminate. }
  destruct (with_user_id _) as [d2 | x] eqn:Hu; [| now apply Hfail in Hrun].
  destruct (expires_of default_expire_time now d0) as [| n | s | E | kvs] eqn:He;
    try (now apply Hfail in Hrun).
  destruct (E - now <=? 0); [now apply Hfail in Hrun |].
  match type of Hrun with
  | context [zadd_at ?a ?k ?m ?c ?e] => destruct (zadd_at a k m c e) as [r2 | x] eqn:Hz2
  end; [| now apply Hfail in Hrun].
  apply zadd_at_Ok in Hz2. destruct Hz2 as (z2 & _ & ->).
  assert (Hok : forall r',
             r' !! _get_key str_of "token" (PStr token_id)
               = Some (RString (Pickle (PDict d2)) (now + (E - now))) ->
             (World r' (<[l := d2]> h) b sv, Ok l) = (w', res) ->
             heap w' !! data = Some d0 /\
             (forall l0, is_Some (h !! l0) -> heap w' !! l0 = h !! l0) /\
             (forall l1, res = Ok l1 ->
                l1 <> data /\ h !! l1 = None /\
                exists d',
                  heap w' !! l1 = Some d' /\
                  Ok d2 = Ok d' /\
                  redis w' !! _get_key str_of "token" (PStr token_id)
                    = Some (RString (Pickle (PDict d')) (now + (E - now))))).
  { intros r' Hr' [= <- <-]. simpl. split; [| split].
    - rewrite Hframe; eauto.
    - intros l0 H0. now apply Hframe.
    - intros l1 [= <-]. repeat split; trivial.
      exists d2. repeat split; trivial. apply lookup_insert_eq. }
  destruct (trust_enabled && truthy _).
  - destruct (trustee_of V2 V3 d2) as [trustee | x]; [| now apply Hfail in Hrun].
    match type of Hrun with
    | context [zadd_at ?a ?k ?m ?c ?e] => destruct (zadd_at a k m c e) as [r3 | x] eqn:Hz3
    end; [| now apply Hfail in Hrun].
    apply zadd_at_Ok in Hz3. destruct Hz3 as (z3 & _ & ->).
    apply Hok in Hrun; [exact Hrun |].
    rewrite !Hkeys. apply lookup_insert_eq.
  - apply Hok in Hrun; [exact Hrun |].
    rewrite !Hkeys. apply lookup_insert_eq.
Qed.

Lemma create_token_keeps_argument_witness :
  let run := sample_create 100 "t1" 0%nat (world_of caller_data) in
  heap (fst run) !! 0%nat = Some caller_data /\
  snd run = Ok 1%nat /\
  heap (fst run) !! 1%nat
    = Some [("id", PStr "t1"); ("user", PDict [("id", PStr "u1")]);
            ("expires", PTime 86500); ("user_id", PStr "u1")].
Proof.
  intros run.
  destruct (create_token_keeps_argument sample_expire true "v2.0" "v3.0"
              sample_str_of 100 "t1" 0%nat (world_of caller_data) (fst run)
              (snd run) caller_data eq_refl (surjective_pairing run))
    as (H & _ & _).
  split; [exact H |]. split; vm_compute; reflexivity.
Defined.

(** ** A successful [create_token] *)

Lemma create_token_Ok (default_expire_time : Z -> Z) (trust_enabled : bool)
    (V2 V3 : string) (str_of : pyval -> string) (now : Z) (token_id : string)
    (data : loc) (w w' : world) (l : loc) (d0 : pydict) :
  heap w !! data = Some d0 ->
  create_token default_expire_time trust_enabled V2 V3 str_of now token_id data w
    = (w', Ok l) ->
  let m := Pickle (PStr token_id) in
  let tkey := _get_key str_of "token" (PStr token_id) in
  exists d E z2,
    with_user_id (with_expires default_expire_time now d0) = Ok d /\
    expires_of default_expire_time now d0 = PTime E /\
    l = fresh (dom (heap w)) /\
    heap w' = <[l := d]> (heap w) /\
    bgsaves w' = bgsaves w /\
    let okey := _get_key str_of "user" (dict_get "user_id" d) in
    let r1 := <[tkey := RString (Pickle (PDict d)) (now + (E - now))]> (redis w) in
    let r2 := <[okey := RZSet (zset_add m E z2)]> r1 in
    zset_at now okey r1 = Ok z2 /\
    ((trust_enabled && truthy (dict_get "trust_id" d) = false /\ redis w' = r2) \/
     (trust_enabled && truthy (dict_get "trust_id" d) = true /\
      exists trustee z3,
        trustee_of V2 V3 d = Ok trustee /\
        zset_at now (_get_key str_of "user" trustee) r2 = Ok z3 /\
        redis w' = <[_get_key str_of "user" trustee := RZSet (zset_add m E z3)]> r2)).
Proof.
  intros Hd Hrun m tkey. destruct w as [r h b sv]. simpl in Hd |- *.
  rewrite (create_token_run default_expire_time trust_enabled V2 V3 str_of now
             token_id data r h b sv d0 Hd) in Hrun.
  cbv zeta in Hrun.
  destruct (with_user_id _) as [d | x]; [| discriminate].
  destruct (expires_of default_expire_time now d0) as [| n | s | E | kvs];
    try discriminate.
  destruct (E - now <=? 0); [discriminate |].
  match type of Hrun with
  | context [zadd_at ?a ?k ?m ?c ?e] => destruct (zadd_at a k m c e) as [r2 | x] eqn:Hz2
  end; [| discriminate].
  apply zadd_at_Ok in Hz2. destruct Hz2 as (z2 & Hz2 & ->).
  exists d, E, z2.
  destruct (trust_enabled && truthy (dict_get "trust_id" d)).
  - destruct (trustee_of V2 V3 d) as [trustee | x]; [| discriminate].
    match type of Hrun with
    | context [zadd_at ?a ?k ?m ?c ?e] => destruct (zadd_at a k m c e) as [r3 | x] eqn:Hz3
    end; [| discriminate].
    apply zadd_at_Ok in Hz3. destruct Hz3 as (z3 & Hz3 & ->).
    injection Hrun as <- <-. simpl. repeat split; trivial.
    right. split; [reflexivity |]. exists trustee, z3. now repeat split.
  - injection Hrun as <- <-. simpl. repeat split; trivial.
    left. now split.
Qed.

(** [create_token] returns only for an expiry in the future: Redis
    refuses the record otherwise. *)
Lemma create_token_Ok_future (default_expire_time : Z -> Z) (trust_enabled : bool)
    (V2 V3 : string) (str_of : pyval -> string) (now : Z) (token_id : string)
    (data : loc) (w w' : world) (l : loc) (d0 : pydict) (E : Z) :
  heap w !! data = Some d0 ->
  create_token default_expire_time trust_enabled V2 V3 str_of now token_id data w
    = (w', Ok l) ->
  expires_of default_expire_time now d0 = PTime E ->
  now < E.
Proof.
  intros Hd Hrun HE. destruct w as [r h b sv]. simpl in Hd.
  rewrite (create_token_run default_expire_time trust_enabled V2 V3 str_of now
             token_id data r h b sv d0 Hd) in Hrun.
  cbv zeta in Hrun. rewrite HE in Hrun.
  destruct (with_user_id _) as [d | x]; [| discriminate].
  destruct (E - now <=? 0) eqn:C; [discriminate |].
  apply Z.leb_gt in C. lia.
Qed.

(** Dicts that hold a key are true for Python. *)
Lemma dict_with_key_truthy (k : string) (v : pyval) (d : pydict) :
  dict_lookup k d = Some v -> truthy (PDict d) = true.
Proof. destruct d; [discriminate | reflexivity]. Qed.

Lemma with_user_id_expires (default_expire_time : Z -> Z) (now : Z)
    (d0 d : pydict) :
  with_user_id (with_expires default_expire_time now d0) = Ok d ->
  dict_lookup "expires" d = Some (expires_of default_expire_time now d0).
Proof.
  intros H. rewrite (with_user_id_other _ _ "expires" H) by discriminate.
  apply with_expires_lookup.
Qed.

(** ** C1: a created token is there until it expires *)

(** C1, as stated, fails on the empty token id: [create_token] stores the
    record, with an expiry in the future, and [get_token] refuses the id
    before it looks at Redis. *)
Lemma empty_id_created_not_found :
  ~ (forall (now : Z) (token_id : string) (data : loc) (w w' : world) (l : loc)
            (d : pydict) (E t : Z),
        sample_create now token_id data w = (w', Ok l) ->
        heap w' !! l = Some d ->
        dict_lookup "expires" d = Some (PTime E) ->
        now < E -> t <= E ->
        get_token sample_str_of t token_id w' = (w', Ok (PDict d))).
Proof.
  intros H.
  pose (run := sample_create 100 "" 0%nat (world_of data_200)).
  assert (Hrun : run = (fst run, Ok 1%nat)) by (vm_compute; reflexivity).
  assert (Hd : heap (fst run) !! 1%nat = Some data_200) by (vm_compute; reflexivity).
  specialize (H 100 "" 0%nat (world_of data_200) (fst run) 1%nat data_200 200 150
                Hrun Hd eq_refl ltac:(lia) ltac:(lia)).
  rewrite get_token_empty in H. discriminate.
Qed.

(** C1, amended: a token created under a non-empty id has its expiry
    strictly in the future (Redis refuses the record otherwise); the
    primary record is set with a time to live of the expiry minus the time
    of creation; [get_token] returns the stored data, whose [expires] is
    that expiry, at every instant until the clock passes the expiry, and
    raises [TokenNotFound] at every instant after it has passed. The
    expiry is the one of the caller's dict, or the default one when there
    is none. *)
Theorem create_then_get (default_expire_time : Z -> Z) (trust_enabled : bool)
    (V2 V3 : string) (str_of : pyval -> string) (now : Z) (token_id : string)
    (data : loc) (w w' : world) (l : loc) (d0 : pydict) :
  token_id <> "" ->
  heap w !! data = Some d0 ->
  create_token default_expire_time trust_enabled V2 V3 str_of now token_id data w
    = (w', Ok l) ->
  exists d E,
    heap w' !! l = Some d /\
    dict_lookup "expires" d = Some (PTime E) /\
    PTime E = expires_of default_expire_time now d0 /\
    now < E /\
    redis w' !! _get_key str_of "token" (PStr token_id)
      = Some (RString (pickle_dumps (PDict d)) (now + (E - now))) /\
    forall t,
      (t <= E -> get_token str_of t token_id w' = (w', Ok (PDict d))) /\
      (E < t ->
       get_token str_of t token_id w' = (w', Raise (TokenNotFound token_id))).
Proof.
  intros Hid Hd Hrun.
  destruct (create_token_Ok _ _ _ _ _ _ _ _ _ _ _ _ Hd Hrun)
    as (d & E & z2 & Hu & He & Hl & Hheap & _ & _ & Hredis).
  assert (Hfut := create_token_Ok_future _ _ _ _ _ _ _ _ _ _ _ _ _ Hd Hrun He).
  assert (Hexp : dict_lookup "expires" d = Some (PTime E)).
  { rewrite <- He. now apply with_user_id_expires. }
  assert (Hkey : redis w' !! _get_key str_of "token" (PStr token_id)
                 = Some (RString (Pickle (PDict d)) (now + (E - now)))).
  { destruct Hredis as [[_ ->] | (_ & trustee & z3 & _ & _ & ->)].
    - rewrite lookup_insert_ne by apply get_key_user_token_ne.
      apply lookup_insert_eq.
    - rewrite !lookup_insert_ne by apply get_key_user_token_ne.
      apply lookup_insert_eq. }
  exists d, E.
  split; [rewrite Hheap; apply lookup_insert_eq |].
  split; [exact Hexp |]. split; [now symmetry |]. split; [exact Hfut |].
  split; [exact Hkey |].
  intros t. split.
  - intros Ht. apply (get_token_present _ _ _ _ _ (now + (E - now))); trivial.
    + apply rlookup_live. split; [exact Hkey |]. simpl. apply Z.leb_le. lia.
    + now apply (dict_with_key_truthy "expires" (PTime E)).
  - intros Ht. apply get_token_absent. unfold rlookup. rewrite Hkey. simpl.
    destruct (t <=? now + (E - now)) eqn:C; [apply Z.leb_le in C; lia | reflexivity].
Qed.

Lemma create_then_get_witness :
  let run := sample_create 100 "t1" 0%nat (world_of caller_data) in
  exists d,
    dict_lookup "expires" d = Some (PTime 86500) /\
    get_token sample_str_of 86500 "t1" (fst run) = (fst run, Ok (PDict d)) /\
    get_token sample_str_of 86501 "t1" (fst run)
      = (fst run, Raise (TokenNotFound "t1")).
Proof.
  intros run.
  assert (Hrun : run = (fst run, Ok 1%nat)) by (vm_compute; reflexivity).
  destruct (create_then_get sample_expire true "v2.0" "v3.0" sample_str_of 100
              "t1" 0%nat (world_of caller_data) (fst run) 1%nat caller_data
              ltac:(discriminate) eq_refl Hrun)
    as (d & E & _ & Hexp & HE & _ & _ & Hget).
  vm_compute in HE. injection HE as ->.
  exists d. split; [exact Hexp |]. split.
  - apply (Hget 86500). lia.
  - apply (Hget 86501). lia.
Defined.

(** ** C7 and C8: the index of the trustee *)

Lemma stored_get (default_expire_time : Z -> Z) (now : Z) (d0 d : pydict)
    (k : string) :
  with_user_id (with_expires default_expire_time now d0) = Ok d ->
  k <> "user_id" -> k <> "expires" ->
  dict_lookup k d = dict_lookup k d0.
Proof.
  intros H H1 H2. rewrite (with_user_id_other _ _ k H H1).
  now apply with_expires_other.
Qed.


Lemma trustee_of_unknown (V2 V3 : string) (d : pydict) (token_data v : pyval) :
  dict_lookup "token_data" d = Some token_data ->
  dict_lookup "token_version" d = Some v ->
  v <> PStr V2 -> v <> PStr V3 ->
  trustee_of V2 V3 d = Raise UnsupportedTokenVersionException.
Proof.
  intros Htd Hv H2 H3. unfold trustee_of. simpl. rewrite Htd, Hv.
  apply pyval_eqb_false in H2, H3. now rewrite H2, H3.
Qed.



(** C8, as stated, fails: on a token whose version is neither V2 nor V3
    [create_token] raises the exception of the token provider,
    [UnsupportedTokenVersionException], which is not [UnexpectedError]. *)
Lemma unknown_version_not_unexpected_error :
  snd (create_token sample_expire true "v2.0" "v3.0" sample_str_of 100 "t1" 0%nat
         (world_of (trust_data "v1.0")))
    = Raise UnsupportedTokenVersionException /\
  snd (create_token sample_expire true "v2.0" "v3.0" sample_str_of 100 "t1" 0%nat
         (world_of (trust_data "v1.0")))
    <> Raise UnexpectedError.
Proof. split; [vm_compute; reflexivity | vm_compute; discriminate]. Qed.

(** C8, amended: when trust support is enabled, the data carries a
    [trust_id] and a payload, and the version of the token is neither V2
    nor V3, [create_token] never returns; once the steps before the trust
    are through (the user id, an expiry in the future, so that Redis takes
    the record, and the entry in the index of the owner), it raises
    [UnsupportedTokenVersionException], and the record and that entry stay
    written. *)
Theorem create_token_unknown_version (default_expire_time : Z -> Z)
    (V2 V3 : string) (str_of : pyval -> string) (now : Z) (token_id : string)
    (data : loc) (w w' : world) (res : result loc) (d0 : pydict)
    (token_data version : pyval) :
  heap w !! data = Some d0 ->
  truthy (dict_get "trust_id" d0) = true ->
  dict_lookup "token_data" d0 = Some token_data ->
  dict_lookup "token_version" d0 = Some version ->
  version <> PStr V2 -> version <> PStr V3 ->
  create_token default_expire_time true V2 V3 str_of now token_id data w
    = (w', res) ->
  (exists x, res = Raise x) /\
  (forall d E z,
     with_user_id (with_expires default_expire_time now d0) = Ok d ->
     expires_of default_expire_time now d0 = PTime E ->
     now < E ->
     let tkey := _get_key str_of "token" (PStr token_id) in
     let okey := _get_key str_of "user" (dict_get "user_id" d) in
     let r1 := <[tkey := RString (pickle_dumps (PDict d)) (now + (E - now))]>
                 (redis w) in
     zset_at now okey r1 = Ok z ->
     res = Raise UnsupportedTokenVersionException /\
     redis w' = <[okey := RZSet (zset_add (pickle_dumps (PStr token_id)) E z)]> r1).
Proof.
  intros Hd Htrust Htd Hv H2 H3 Hrun. destruct w as [r h b sv]. simpl in Hd |- *.
  rewrite (create_token_run default_expire_time true V2 V3 str_of now
             token_id data r h b sv d0 Hd) in Hrun.
  cbv zeta in Hrun.
  destruct (with_user_id _) as [d | x] eqn:Hu.
  2:{ injection Hrun as <- <-. split; [eauto | discriminate]. }
  assert (Ht : truthy (dict_get "trust_id" d) = true).
  { unfold dict_get in *.
    now rewrite (stored_get _ _ _ _ "trust_id" Hu) by discriminate. }
  assert (Hun : trustee_of V2 V3 d = Raise UnsupportedTokenVersionException).
  { apply (trustee_of_unknown V2 V3 d token_data version); trivial.
    - now rewrite (stored_get _ _ _ _ "token_data" Hu) by discriminate.
    - now rewrite (stored_get _ _ _ _ "token_version" Hu) by discriminate. }
  rewrite Ht, Hun in Hrun. simpl andb in Hrun. cbv iota in Hrun.
  destruct (expires_of default_expire_time now d0) as [| n | s | E | kvs].
  1,2,3,5: injection Hrun as <- <-; split; [eauto | discriminate].
  destruct (E - now <=? 0) eqn:C.
  { injection Hrun as <- <-. split; [eauto |].
    intros d' E' z _ [= <-] HE. apply Z.leb_le in C. lia. }
  unfold zadd_at in Hrun.
  match type of Hrun with
  | context [zset_at ?a ?k ?e] => destruct (zset_at a k e) as [z2 | x] eqn:Hz2
  end.
  - injection Hrun as <- <-. split; [eauto |].
    intros d' E' z [= <-] [= <-] _ Hz.
    unfold pickle_dumps in Hz. rewrite Hz2 in Hz.
    injection Hz as <-. now split.
  - injection Hrun as <- <-. split; [eauto |].
    intros d' E' z [= <-] [= <-] _ Hz.
    unfold pickle_dumps in Hz. rewrite Hz2 in Hz. discriminate.
Qed.

Lemma create_token_unknown_version_witness :
  let run := create_token sample_expire true "v2.0" "v3.0" sample_str_of 100 "t1"
               0%nat (world_of (trust_data "v1.0")) in
  snd run = Raise UnsupportedTokenVersionException /\
  redis (fst run)
    = <["keystone:user:u1" := RZSet [(Pickle (PStr "t1"), 200)]]>
        (<["keystone:token:t1"
           := RString (Pickle (PDict (trust_data "v1.0"))) (100 + (200 - 100))]> ∅).
Proof.
  intros run.
  destruct (create_token_unknown_version sample_expire "v2.0" "v3.0"
              sample_str_of 100 "t1" 0%nat (world_of (trust_data "v1.0"))
              (fst run) (snd run) (trust_data "v1.0")
              (PDict [("OS-TRUST:trust", PDict [("trustee_user_id", PStr "u2")])])
              (PStr "v1.0") eq_refl eq_refl eq_refl eq_refl
              ltac:(discriminate) ltac:(discriminate) (surjective_pairing run))
    as [_ H].
  apply (H (trust_data "v1.0") 200 []); [reflexivity | reflexivity | lia | reflexivity].
Defined.

(** ** The scores of the indexes are times after the epoch *)

Lemma sae_insert_zset (key : string) (z : zset) (r : gmap string rentry) :
  scores_after_epoch r -> (forall m s, In (m, s) z -> 0 <= s) ->
  scores_after_epoch (<[key := RZSet z]> r).
Proof.
  intros [H1 H2] Hz. split.
  - intros k z' m s Hk Hin. destruct (decide (key = k)) as [-> | Hne].
    + rewrite lookup_insert_eq in Hk. injection Hk as <-. now apply (Hz m s).
    + rewrite lookup_insert_ne in Hk by exact Hne. now apply (H1 k z' m s).
  - intros k d dl E Hk He. destruct (decide (key = k)) as [-> | Hne].
    + rewrite lookup_insert_eq in Hk. discriminate.
    + rewrite lookup_insert_ne in Hk by exact Hne. now apply (H2 k d dl E).
Qed.

Lemma sae_insert_record (key : string) (d : pydict) (dl : Z)
    (r : gmap string rentry) :
  scores_after_epoch r ->
  (forall E, dict_lookup "expires" d = Some (PTime E) -> 0 <= E) ->
  scores_after_epoch (<[key := RString (Pickle (PDict d)) dl]> r).
Proof.
  intros [H1 H2] Hd. split.
  - intros k z' m s Hk Hin. destruct (decide (key = k)) as [-> | Hne].
    + rewrite lookup_insert_eq in Hk. discriminate.
    + rewrite lookup_insert_ne in Hk by exact Hne. now apply (H1 k z' m s).
  - intros k d' dl' E Hk He. destruct (decide (key = k)) as [-> | Hne].
    + rewrite lookup_insert_eq in Hk. injection Hk as <- _. now apply Hd.
    + rewrite lookup_insert_ne in Hk by exact Hne. now apply (H2 k d' dl' E).
Qed.

Lemma sae_delete (key : string) (r : gmap string rentry) :
  scores_after_epoch r -> scores_after_epoch (delete key r).
Proof.
  intros [H1 H2]. split.
  - intros k z m s Hk. apply lookup_delete_Some in Hk. destruct Hk as [_ Hk].
    now apply (H1 k z m s).
  - intros k d dl E Hk. apply lookup_delete_Some in Hk. destruct Hk as [_ Hk].
    now apply (H2 k d dl E).
Qed.

Lemma sae_zset_at (now : Z) (key : string) (r : gmap string rentry) (z : zset) :
  scores_after_epoch r -> zset_at now key r = Ok z ->
  forall m s, In (m, s) z -> 0 <= s.
Proof.
  intros [H1 _] Hz m s Hin. unfold zset_at in Hz.
  destruct (rlookup now key r) as [[v d | z0] |] eqn:E; try discriminate.
  - injection Hz as ->. apply rlookup_live in E. destruct E as [E _].
    now apply (H1 key z m s).
  - injection Hz as <-. destruct Hin.
Qed.

Lemma sae_zadd_at (now : Z) (key : string) (m : rbytes) (s : Z)
    (r r' : gmap string rentry) :
  scores_after_epoch r -> 0 <= s -> zadd_at now key m s r = Ok r' ->
  scores_after_epoch r'.
Proof.
  intros Hr Hs Hz. apply zadd_at_Ok in Hz. destruct Hz as (z & Hz & ->).
  apply sae_insert_zset; [exact Hr |].
  intros m' s' Hin. apply In_zset_add in Hin.
  destruct Hin as [[= -> ->] | [_ Hin]]; [exact Hs |].
  now apply (sae_zset_at now key r z Hr Hz m' s').
Qed.

Lemma sae_put_zset (now : Z) (key : string) (z : zset) (r : gmap string rentry) :
  scores_after_epoch r -> (forall m s, In (m, s) z -> 0 <= s) ->
  scores_after_epoch (put_zset key (zset_remrangebyscore 0 now z) r).
Proof.
  intros Hr Hz. unfold put_zset.
  destruct (zset_remrangebyscore 0 now z) as [| x z1] eqn:E.
  - now apply sae_delete.
  - apply sae_insert_zset; [exact Hr |]. intros m s Hin. rewrite <- E in Hin.
    apply In_zset_remrangebyscore in Hin. destruct Hin as [Hin _].
    now apply (Hz m s).
Qed.

Lemma remove_expired_scores (now : Z) (key : string) (w : world) :
  scores_after_epoch (redis w) ->
  scores_after_epoch (redis (fst (_remove_expired now key w))).
Proof.
  intros Hr. unfold _remove_expired, client_zremrangebyscore.
  destruct (rlookup now key (redis w)) as [[v d | z] |] eqn:E; simpl; trivial.
  apply sae_put_zset; [exact Hr |].
  apply rlookup_live in E. destruct E as [E _].
  destruct Hr as [H1 _]. intros m s. now apply (H1 key z m s).
Qed.

Lemma get_token_world (str_of : pyval -> string) (now : Z) (token_id : string)
    (w : world) :
  fst (get_token str_of now token_id w) = w.
Proof.
  unfold get_token. destruct (negb (truthy (PStr token_id))); [reflexivity |].
  unfold bind.
  destruct (_get now (_get_key str_of "token" (PStr token_id)) w)
    as [w1 [v | e]] eqn:G; apply get_world in G; subst w1; [| reflexivity].
  now destruct (negb (truthy v)).
Qed.


(** * Further properties of the driver *)

(** ** The keys *)

Lemma append_inj_l (p a b : string) : (p ++ a = p ++ b)%string -> a = b.
Proof. induction p as [| c p IH]; simpl; [trivial | intros [= H]; auto]. Qed.

(** X15: within a type, distinct ids have distinct keys; the keys of the
    users are apart from the keys of the tokens and from the key of the
    revocation list; the key of a token is the key of the revocation list
    for one id, [revoked]. *)
Theorem key_namespaces (str_of : pyval -> string) (type_ a b : string) (v : pyval) :
  (_get_key str_of type_ (PStr a) = _get_key str_of type_ (PStr b) -> a = b) /\
  _get_key str_of "user" v <> _get_key str_of "token" (PStr a) /\
  _get_key str_of "user" v <> _revocation_list /\
  (_get_key str_of "token" (PStr a) = _revocation_list <-> a = "revoked").
Proof.
  split; [| split; [| split]].
  - unfold _get_key. simpl. intros [= H].
    do 2 apply append_inj_l in H. simpl in H. now injection H.
  - apply get_key_user_token_ne.
  - apply get_key_user_revocation_ne.
  - unfold _get_key, _revocation_list. simpl.
    change ("keystone:" +:+ "token" +:+ ":" +:+ a) with ("keystone:token:" +:+ a).
    change "keystone:token:revoked" with ("keystone:token:" +:+ "revoked").
    split; [apply append_inj_l | now intros ->].
Qed.

(** ** [get_token] *)

(** X1: [get_token] never writes; it returns a value exactly when the id
    is not empty and its key holds a live string that is the pickle of a
    true value, and it raises [TokenNotFound] exactly when the id is empty,
    the key is missing or expired, or the value stored is a false one. *)
Theorem get_token_spec (str_of : pyval -> string) (now : Z) (token_id : string)
    (w : world) :
  let key := _get_key str_of "token" (PStr token_id) in
  fst (get_token str_of now token_id w) = w /\
  (forall v,
     snd (get_token str_of now token_id w) = Ok v <->
     token_id <> "" /\ truthy v = true /\
     exists dl, rlookup now key (redis w) = Some (RString (Pickle v) dl)) /\
  (forall x,
     snd (get_token str_of now token_id w) = Raise (TokenNotFound x) <->
     x = token_id /\
     (token_id = "" \/ rlookup now key (redis w) = None \/
      exists v dl, rlookup now key (redis w) = Some (RString (Pickle v) dl) /\
                   truthy v = false)).
Proof.
  intros key. unfold get_token. fold key.
  destruct (String.eqb_spec token_id "") as [-> | Hid].
  - simpl. split; [reflexivity |]. split.
    + intros v. split; [discriminate | intros [H _]; congruence].
    + intros x. split; [intros [= <-]; auto | intros [-> _]; reflexivity].
  - assert (Ht : truthy (PStr token_id) = true) by now apply truthy_str.
    rewrite Ht. cbn [negb].
    unfold bind, _get, client_get, bind, lift, ret, raise, pickle_loads.
    destruct (rlookup now key (redis w)) as [[[v | bs] dl | z] |] eqn:E; simpl.
    + destruct (truthy v) eqn:Tv; simpl.
      * split; [reflexivity |]. split.
        -- intros v'. split.
           ++ intros [= <-]. eauto.
           ++ intros (_ & _ & dl' & [= -> _]). reflexivity.
        -- intros x. split; [discriminate |].
           intros (_ & [? | [? | (v' & dl' & [= -> _] & Hf)]]); congruence.
      * split; [reflexivity |]. split.
        -- intros v'. split; [discriminate |].
           intros (_ & Hv' & dl' & [= -> _]). congruence.
        -- intros x. split.
           ++ intros [= <-]. split; [reflexivity |]. right. right. eauto.
           ++ now intros [-> _].
    + split; [reflexivity |]. split.
      * intros v. split; [discriminate | intros (_ & _ & dl' & ?); discriminate].
      * intros x. split; [discriminate |].
        intros (_ & [? | [? | (v' & dl' & ? & _)]]); congruence.
    + split; [reflexivity |]. split.
      * intros v. split; [discriminate | intros (_ & _ & dl' & ?); discriminate].
      * intros x. split; [discriminate |].
        intros (_ & [? | [? | (v' & dl' & ? & _)]]); congruence.
    + split; [reflexivity |]. split.
      * intros v. split; [discriminate | intros (_ & _ & dl' & ?); discriminate].
      * intros x. split; [intros [= <-]; auto |]. now intros [-> _].
Qed.

(** ** [delete_token] *)

(** X10: deleting a token whose key is missing, or holds a string whose
    deadline has passed, raises [TokenNotFound] and leaves the world as it
    is: nothing is deleted, nothing is revoked, no save is requested. *)
Theorem delete_absent_changes_nothing (str_of : pyval -> string) (now : Z)
    (token_id : string) (w : world) :
  let key := _get_key str_of "token" (PStr token_id) in
  redis w !! key = None \/
  (exists v dl, redis w !! key = Some (RString v dl) /\ dl < now) ->
  delete_token str_of now token_id w = (w, Raise (TokenNotFound token_id)).
Proof.
  intros key H. apply delete_token_absent. fold key. unfold rlookup.
  destruct H as [-> | (v & dl & -> & Hdl)]; [reflexivity |].
  simpl. destruct (now <=? dl) eqn:C; [apply Z.leb_le in C; lia | reflexivity].
Qed.

Lemma delete_absent_changes_nothing_witness :
  delete_token sample_str_of 201 "t1" world_t1_t2
    = (world_t1_t2, Raise (TokenNotFound "t1")).
Proof.
  apply delete_absent_changes_nothing. right.
  eexists _, 200. split; [vm_compute; reflexivity | lia].
Defined.

(** X11: once [delete_token] has succeeded, the token is gone for good:
    [get_token] and [delete_token] raise [TokenNotFound] at every later
    instant and change nothing (for every id but [revoked], whose key is
    the key of the revocation list). *)
Theorem deleted_token_is_gone (str_of : pyval -> string) (now : Z)
    (token_id : string) (w w' : world) :
  token_id <> "revoked" ->
  delete_token str_of now token_id w = (w', Ok tt) ->
  forall t,
    get_token str_of t token_id w' = (w', Raise (TokenNotFound token_id)) /\
    delete_token str_of t token_id w' = (w', Raise (TokenNotFound token_id)).
Proof.
  intros Hid Hdel t.
  assert (Hkey : _get_key str_of "token" (PStr token_id) <> _revocation_list).
  { intros E. apply Hid. unfold _get_key, _revocation_list in E. simpl in E.
    change ("keystone:" +:+ "token" +:+ ":" +:+ token_id)
      with ("keystone:token:" +:+ token_id) in E.
    change "keystone:token:revoked" with ("keystone:token:" +:+ "revoked") in E.
    now apply append_inj_l in E. }
  apply delete_token_Ok in Hdel.
  destruct Hdel as (_ & data & dl & E & z & _ & _ & _ & _ & _ & ->).
  assert (Habs : rlookup t (_get_key str_of "token" (PStr token_id))
                   (<[_revocation_list := RZSet (zset_add (Pickle data) E z)]>
                      (delete (_get_key str_of "token" (PStr token_id)) (redis w)))
                 = None).
  { unfold rlookup. rewrite lookup_insert_ne by congruence.
    now rewrite lookup_delete_eq. }
  split.
  - now apply get_token_absent.
  - now apply delete_token_absent.
Qed.

Lemma deleted_token_is_gone_witness :
  get_token sample_str_of 150 "t2" world_t1_t2_deleted
    = (world_t1_t2_deleted, Raise (TokenNotFound "t2")) /\
  delete_token sample_str_of 150 "t2" world_t1_t2_deleted
    = (world_t1_t2_deleted, Raise (TokenNotFound "t2")).
Proof.
  apply (deleted_token_is_gone sample_str_of 110 "t2" world_t1_t2).
  - discriminate.
  - vm_compute. reflexivity.
Defined.

(** X9: a successful [delete_token] requests one save, leaves the heap
    alone, and writes two keys only, the key of the token and the key of
    the revocation list: the indexes of the users keep their entry for the
    token. *)
Theorem delete_token_frame (str_of : pyval -> string) (now : Z)
    (token_id : string) (w w' : world) :
  delete_token str_of now token_id w = (w', Ok tt) ->
  heap w' = heap w /\
  bgsaves w' = S (bgsaves w) /\
  (forall key,
     key <> _get_key str_of "token" (PStr token_id) ->
     key <> _revocation_list ->
     redis w' !! key = redis w !! key) /\
  (forall user_id,
     redis w' !! _get_key str_of "user" user_id
     = redis w !! _get_key str_of "user" user_id).
Proof.
  intros Hdel. apply delete_token_Ok in Hdel.
  destruct Hdel as (_ & data & dl & E & z & _ & _ & _ & _ & _ & ->). simpl.
  assert (Hk : forall key,
             key <> _get_key str_of "token" (PStr token_id) ->
             key <> _revocation_list ->
             (<[_revocation_list := RZSet (zset_add (Pickle data) E z)]>
                (delete (_get_key str_of "token" (PStr token_id)) (redis w)))
               !! key = redis w !! key).
  { intros key H1 H2. rewrite lookup_insert_ne by congruence.
    now rewrite lookup_delete_ne by congruence. }
  repeat split; trivial.
  intros user_id. apply Hk.
  - apply get_key_user_token_ne.
  - apply get_key_user_revocation_ne.
Qed.

Lemma delete_token_frame_witness :
  bgsaves world_t1_t2_deleted = S (bgsaves world_t1_t2) /\
  redis world_t1_t2_deleted !! _get_key sample_str_of "user" (PStr "u1")
  = redis world_t1_t2 !! _get_key sample_str_of "user" (PStr "u1").
Proof.
  assert (Hdel : delete_token sample_str_of 110 "t2" world_t1_t2
                 = (world_t1_t2_deleted, Ok tt)) by (vm_compute; reflexivity).
  destruct (delete_token_frame sample_str_of 110 "t2" world_t1_t2
              world_t1_t2_deleted Hdel) as (_ & H1 & _ & H2).
  split; [exact H1 | apply H2].
Defined.

(** X12: [delete_token] deletes the record before it reads the expiry
    from it. On a record without [expires] it raises [KeyError], on one
    whose [expires] is no datetime [AttributeError]; either way the record
    is already deleted, nothing is added to the revocation list and no
    save is requested. *)
Theorem delete_token_without_expiry (str_of : pyval -> string) (now : Z)
    (token_id : string) (w : world) (d : pydict) (dl : Z) :
  let key := _get_key str_of "token" (PStr token_id) in
  token_id <> "" -> d <> [] ->
  rlookup now key (redis w) = Some (RString (Pickle (PDict d)) dl) ->
  (dict_lookup "expires" d = None ->
   delete_token str_of now token_id w
     = (set_redis (delete key (redis w)) w, Raise (KeyError "expires"))) /\
  (forall e, dict_lookup "expires" d = Some e -> (forall E, e <> PTime E) ->
   delete_token str_of now token_id w
     = (set_redis (delete key (redis w)) w, Raise AttributeError)).
Proof.
  intros key Hid Hd Hrec.
  assert (Hget : get_token str_of now token_id w = (w, Ok (PDict d))).
  { apply (get_token_present _ _ _ _ _ dl); trivial.
    destruct d; [congruence | reflexivity]. }
  split.
  - intros He. unfold delete_token. rewrite (bind_run _ _ _ _ _ Hget).
    unfold bind, client_delete, lift. fold key. simpl. now rewrite He.
  - intros e He Hne. unfold delete_token. rewrite (bind_run _ _ _ _ _ Hget).
    unfold bind, client_delete, lift. fold key. simpl. rewrite He.
    destruct e as [| n | s | E | kvs]; try reflexivity.
    now destruct (Hne E).
Qed.

Lemma delete_token_without_expiry_witness :
  let w := World {[ "keystone:token:t1" := RString (Pickle (PDict [("a", PStr "b")])) 200 ]}
             ∅ 0 false in
  delete_token sample_str_of 100 "t1" w
  = (World ∅ ∅ 0 false, Raise (KeyError "expires")).
Proof.
  intros w.
  destruct (delete_token_without_expiry sample_str_of 100 "t1" w
              [("a", PStr "b")] 200 ltac:(discriminate) ltac:(discriminate)
              eq_refl) as [H _].
  rewrite (H eq_refl). reflexivity.
Defined.

(** ** [create_token] *)

Lemma with_expires_user_id (default_expire_time : Z -> Z) (now : Z) (d : pydict) :
  dict_get "user_id" (with_expires default_expire_time now d) = dict_get "user_id" d.
Proof. unfold dict_get. now rewrite with_expires_other by discriminate. Qed.

(** X7: [create_token] checks its data before it writes. When the dict
    has no true [user_id] and no [user], it raises [KeyError]; when it has
    a [user_id] and an [expires] that is no datetime, it raises
    [TypeError]. Redis is then as before: no record, no entry in an index,
    no save. *)
Theorem create_token_rejects_before_write (default_expire_time : Z -> Z)
    (trust_enabled : bool) (V2 V3 : string) (str_of : pyval -> string) (now : Z)
    (token_id : string) (data : loc) (w : world) (d0 : pydict) :
  heap w !! data = Some d0 ->
  let run := create_token default_expire_time trust_enabled V2 V3 str_of now
               token_id data w in
  (truthy (dict_get "user_id" d0) = false -> dict_lookup "user" d0 = None ->
   snd run = Raise (KeyError "user") /\
   redis (fst run) = redis w /\ bgsaves (fst run) = bgsaves w) /\
  (forall e,
     truthy (dict_get "user_id" d0) = true ->
     dict_lookup "expires" d0 = Some e -> (forall E, e <> PTime E) ->
     snd run = Raise TypeError /\
     redis (fst run) = redis w /\ bgsaves (fst run) = bgsaves w).
Proof.
  intros Hd run. unfold run. destruct w as [r h b sv]. simpl in Hd |- *.
  rewrite (create_token_run default_expire_time trust_enabled V2 V3 str_of now
             token_id data r h b sv d0 Hd).
  cbv zeta. split.
  - intros Hu Huser. unfold with_user_id.
    rewrite with_expires_user_id, Hu. cbn [negb py_getitem].
    rewrite with_expires_other by discriminate. rewrite Huser.
    now repeat split.
  - intros e Hu He Hne. unfold with_user_id, with_expires, expires_of.
    rewrite He, Hu. cbn [negb].
    destruct e as [| n | s | E | kvs]; try (now repeat split).
    now destruct (Hne E).
Qed.

Lemma create_token_rejects_before_write_witness :
  let run := sample_create 100 "t1" 0%nat (world_of [("id", PStr "t1")]) in
  snd run = Raise (KeyError "user") /\
  redis (fst run) = ∅ /\ bgsaves (fst run) = 0%nat.
Proof.
  intros run.
  destruct (create_token_rejects_before_write sample_expire true "v2.0" "v3.0"
              sample_str_of 100 "t1" 0%nat (world_of [("id", PStr "t1")])
              [("id", PStr "t1")] eq_refl) as [H _].
  apply H; reflexivity.
Defined.

(** The record a successful [create_token] leaves under the key of the
    token. *)
Lemma create_token_record (default_expire_time : Z -> Z) (trust_enabled : bool)
    (V2 V3 : string) (str_of : pyval -> string) (now : Z) (token_id : string)
    (data : loc) (w w' : world) (l : loc) (d0 : pydict) :
  heap w !! data = Some d0 ->
  create_token default_expire_time trust_enabled V2 V3 str_of now token_id data w
    = (w', Ok l) ->
  exists d E,
    expires_of default_expire_time now d0 = PTime E /\
    heap w' !! l = Some d /\
    dict_lookup "expires" d = Some (PTime E) /\
    redis w' !! _get_key str_of "token" (PStr token_id)
      = Some (RString (Pickle (PDict d)) (now + (E - now))) /\
    forall key,
      key <> _get_key str_of "token" (PStr token_id) ->
      (forall u, key <> _get_key str_of "user" u) ->
      redis w' !! key = redis w !! key.
Proof.
  intros Hd Hrun.
  destruct (create_token_Ok _ _ _ _ _ _ _ _ _ _ _ _ Hd Hrun)
    as (d & E & z2 & Hu & He & Hl & Hheap & _ & _ & Hredis).
  exists d, E. split; [exact He |].
  split; [rewrite Hheap; apply lookup_insert_eq |].
  split; [rewrite <- He; now apply with_user_id_expires |].
  destruct Hredis as [[_ ->] | (_ & trustee & z3 & _ & _ & ->)]; split.
  - rewrite lookup_insert_ne by apply get_key_user_token_ne.
    apply lookup_insert_eq.
  - intros key H1 H2. rewrite lookup_insert_ne by (apply not_eq_sym, H2).
    now rewrite lookup_insert_ne by congruence.
  - rewrite !lookup_insert_ne by apply get_key_user_token_ne.
    apply lookup_insert_eq.
  - intros key H1 H2. rewrite !lookup_insert_ne by (apply not_eq_sym, H2).
    now rewrite lookup_insert_ne by congruence.
Qed.

(** X8: after a successful [create_token] the index of the owner holds
    the token id once, with the expiry as its score, and beside it what it
    held before: every entry of another token is there as it was, and
    nothing else has come in. *)
Theorem create_token_owner_index (default_expire_time : Z -> Z)
    (trust_enabled : bool) (V2 V3 : string) (str_of : pyval -> string) (now : Z)
    (token_id : string) (data : loc) (w w' : world) (l : loc) (d0 : pydict) :
  heap w !! data = Some d0 ->
  create_token default_expire_time trust_enabled V2 V3 str_of now token_id data w
    = (w', Ok l) ->
  exists d E z z',
    heap w' !! l = Some d /\
    dict_lookup "expires" d = Some (PTime E) /\
    zset_at now (_get_key str_of "user" (dict_get "user_id" d)) (redis w) = Ok z /\
    redis w' !! _get_key str_of "user" (dict_get "user_id" d) = Some (RZSet z') /\
    occurrences (pickle_dumps (PStr token_id)) z' = 1%nat /\
    forall x,
      In x z' <->
      x = (pickle_dumps (PStr token_id), E) \/
      (fst x <> pickle_dumps (PStr token_id) /\ In x z).
Proof.
  intros Hd Hrun.
  destruct (create_token_Ok _ _ _ _ _ _ _ _ _ _ _ _ Hd Hrun)
    as (d & E & z2 & Hu & He & Hl & Hheap & _ & Hz2 & Hredis).
  rewrite zset_at_insert_ne in Hz2
    by (apply not_eq_sym, get_key_user_token_ne).
  unfold pickle_dumps.
  destruct Hredis as [[_ Hr] | (_ & trustee & z3 & _ & Hz3 & Hr)].
  - exists d, E, z2, (zset_add (Pickle (PStr token_id)) E z2).
    split; [rewrite Hheap; apply lookup_insert_eq |].
    split; [rewrite <- He; now apply with_user_id_expires |].
    split; [exact Hz2 |].
    split; [rewrite Hr; apply lookup_insert_eq |].
    split; [apply occurrences_zset_add |].
    intros x. apply In_zset_add.
  - destruct (decide (_get_key str_of "user" trustee
                      = _get_key str_of "user" (dict_get "user_id" d))) as [Heq | Hne].
    + rewrite Heq in *. rewrite zset_at_insert_zset in Hz3. injection Hz3 as <-.
      exists d, E, z2,
        (zset_add (Pickle (PStr token_id)) E (zset_add (Pickle (PStr token_id)) E z2)).
      split; [rewrite Hheap; apply lookup_insert_eq |].
      split; [rewrite <- He; now apply with_user_id_expires |].
      split; [exact Hz2 |].
      split; [rewrite Hr; apply lookup_insert_eq |].
      split; [apply occurrences_zset_add |].
      intros x. rewrite !In_zset_add. tauto.
    + exists d, E, z2, (zset_add (Pickle (PStr token_id)) E z2).
      split; [rewrite Hheap; apply lookup_insert_eq |].
      split; [rewrite <- He; now apply with_user_id_expires |].
      split; [exact Hz2 |].
      split; [rewrite Hr, lookup_insert_ne by exact Hne; apply lookup_insert_eq |].
      split; [apply occurrences_zset_add |].
      intros x. apply In_zset_add.
Qed.

Lemma create_token_owner_index_witness :
  exists z',
    redis world_t1_t2 !! "keystone:user:u1" = Some (RZSet z') /\
    occurrences (Pickle (PStr "t2")) z' = 1%nat /\
    In (Pickle (PStr "t1"), 200) z'.
Proof.
  set (data := [("expires", PTime 200); ("user", PDict [("id", PStr "u1")])]).
  set (w1 := fst (sample_create 100 "t1" 0%nat (world_of data))).
  assert (Hrun : sample_create 100 "t2" 0%nat w1 = (world_t1_t2, Ok 2%nat))
    by (vm_compute; reflexivity).
  destruct (create_token_owner_index sample_expire true "v2.0" "v3.0"
              sample_str_of 100 "t2" 0%nat w1 world_t1_t2 2%nat data
              eq_refl Hrun)
    as (d & E & z & z' & Hh & _ & Hz & Hz' & Hocc & Hin).
  assert (Hd : d = [("expires", PTime 200); ("user", PDict [("id", PStr "u1")]);
                    ("user_id", PStr "u1")]).
  { vm_compute in Hh. now injection Hh. }
  subst d. exists z'. split; [exact Hz' |]. split; [exact Hocc |].
  apply Hin. right. split; [discriminate |].
  vm_compute in Hz. injection Hz as <-. now left.
Defined.

(** ** [create_token], then [delete_token] *)

(** A [delete_token] that goes through, step by step. *)
Lemma delete_token_run (str_of : pyval -> string) (now : Z) (token_id : string)
    (w : world) (d : pydict) (dl E : Z) (z : zset) :
  let key := _get_key str_of "token" (PStr token_id) in
  token_id <> "" ->
  rlookup now key (redis w) = Some (RString (Pickle (PDict d)) dl) ->
  dict_lookup "expires" d = Some (PTime E) ->
  zset_at now _revocation_list (delete key (redis w)) = Ok z ->
  saving w = false ->
  delete_token str_of now token_id w
    = (World (<[_revocation_list := RZSet (zset_add (Pickle (PDict d)) E z)]>
                (delete key (redis w)))
             (heap w) (S (bgsaves w)) true, Ok tt).
Proof.
  intros key Hid Hrec He Hz Hs.
  assert (Hget : get_token str_of now token_id w = (w, Ok (PDict d))).
  { apply (get_token_present _ _ _ _ _ dl); trivial.
    now apply (dict_with_key_truthy "expires" (PTime E)). }
  unfold delete_token. rewrite (bind_run _ _ _ _ _ Hget).
  unfold bind, client_delete, lift, _zadd, client_zadd, client_bgsave, pickle_dumps.
  fold key. simpl. rewrite He. simpl. rewrite Hz. simpl. now rewrite Hs.
Qed.

(** X13: a token that has expired cannot be revoked. Once the expiry of
    a created token has passed, [delete_token] raises [TokenNotFound] and
    changes nothing: the token never reaches the revocation list. *)
Theorem expired_token_not_revoked (default_expire_time : Z -> Z)
    (trust_enabled : bool) (V2 V3 : string) (str_of : pyval -> string) (now : Z)
    (token_id : string) (data : loc) (w w' : world) (l : loc) (d0 : pydict)
    (E t : Z) :
  heap w !! data = Some d0 ->
  create_token default_expire_time trust_enabled V2 V3 str_of now token_id data w
    = (w', Ok l) ->
  expires_of default_expire_time now d0 = PTime E ->
  E < t ->
  delete_token str_of t token_id w' = (w', Raise (TokenNotFound token_id)).
Proof.
  intros Hd Hrun HE Ht.
  destruct (create_token_record _ _ _ _ _ _ _ _ _ _ _ _ Hd Hrun)
    as (d & E' & HE' & _ & _ & Hkey & _).
  rewrite HE in HE'. injection HE' as <-.
  apply delete_token_absent. unfold rlookup. rewrite Hkey. simpl.
  destruct (t <=? now + (E - now)) eqn:C; [apply Z.leb_le in C; lia | reflexivity].
Qed.

Lemma expired_token_not_revoked_witness :
  delete_token sample_str_of 201 "t2" world_t1_t2
    = (world_t1_t2, Raise (TokenNotFound "t2")).
Proof.
  set (data := [("expires", PTime 200); ("user", PDict [("id", PStr "u1")])]).
  set (w1 := fst (sample_create 100 "t1" 0%nat (world_of data))).
  assert (Hrun : sample_create 100 "t2" 0%nat w1 = (world_t1_t2, Ok 2%nat))
    by (vm_compute; reflexivity).
  apply (expired_token_not_revoked sample_expire true "v2.0" "v3.0" sample_str_of
           100 "t2" 0%nat w1 world_t1_t2 2%nat data 200 201 eq_refl Hrun eq_refl).
  lia.
Defined.

Lemma token_key_revocation_ne (str_of : pyval -> string) (token_id : string) :
  token_id <> "revoked" ->
  _get_key str_of "token" (PStr token_id) <> _revocation_list.
Proof.
  intros Hid E. apply Hid. unfold _get_key, _revocation_list in E. simpl in E.
  change ("keystone:" +:+ "token" +:+ ":" +:+ token_id)
    with ("keystone:token:" +:+ token_id) in E.
  change "keystone:token:revoked" with ("keystone:token:" +:+ "revoked") in E.
  now apply append_inj_l in E.
Qed.

(** X14: a token that was created can be revoked until it expires. When
    the key of the revocation list holds a sorted set or nothing and no
    background save is in progress, [delete_token] returns at every
    instant up to the expiry; it removes the record, adds the stored data
    to the revocation list, with the expiry as its score, and starts a
    save (for every id but the empty one and [revoked]). While a save is
    in progress it raises the error of Redis instead, after the record is
    removed and the entry added. *)
Theorem created_token_can_be_revoked (default_expire_time : Z -> Z)
    (trust_enabled : bool) (V2 V3 : string) (str_of : pyval -> string) (now : Z)
    (token_id : string) (data : loc) (w w' : world) (l : loc) (d0 : pydict)
    (E t : Z) (z : zset) :
  token_id <> "" -> token_id <> "revoked" ->
  heap w !! data = Some d0 ->
  create_token default_expire_time trust_enabled V2 V3 str_of now token_id data w
    = (w', Ok l) ->
  expires_of default_expire_time now d0 = PTime E ->
  t <= E ->
  zset_at t _revocation_list (redis w) = Ok z ->
  exists d,
    heap w' !! l = Some d /\
    let w'' := fst (delete_token str_of t token_id w') in
    snd (delete_token str_of t token_id w')
    = (if saving w then Raise ResponseError else Ok tt) /\
    redis w'' !! _revocation_list
      = Some (RZSet (zset_add (pickle_dumps (PDict d)) E z)) /\
    redis w'' !! _get_key str_of "token" (PStr token_id) = None /\
    bgsaves w'' = (if saving w then bgsaves w else S (bgsaves w)).
Proof.
  intros Hid Hrev Hd Hrun HE Ht Hz.
  destruct (create_token_record _ _ _ _ _ _ _ _ _ _ _ _ Hd Hrun)
    as (d & E' & HE' & Hh & Hexp & Hkey & Hframe).
  rewrite HE in HE'. injection HE' as <-.
  destruct (create_token_Ok _ _ _ _ _ _ _ _ _ _ _ _ Hd Hrun)
    as (_ & _ & _ & _ & _ & _ & _ & Hb & _).
  assert (Hsv : saving w' = saving w).
  { destruct w as [r h b sv]. simpl in Hd.
    rewrite (create_token_run default_expire_time trust_enabled V2 V3 str_of now
               token_id data r h b sv d0 Hd) in Hrun.
    cbv zeta in Hrun.
    repeat match type of Hrun with
           | context [match ?x with _ => _ end] => destruct x
           end; now injection Hrun as <- _. }
  assert (Hne := token_key_revocation_ne str_of token_id Hrev).
  assert (Hz' : zset_at t _revocation_list
                  (delete (_get_key str_of "token" (PStr token_id)) (redis w')) = Ok z).
  { rewrite <- Hz. unfold zset_at, rlookup.
    rewrite lookup_delete_ne by exact Hne.
    rewrite Hframe; [reflexivity | congruence |].
    intros u. apply not_eq_sym, get_key_user_revocation_ne. }
  assert (Hrec : rlookup t (_get_key str_of "token" (PStr token_id)) (redis w')
                 = Some (RString (Pickle (PDict d)) (now + (E - now)))).
  { apply rlookup_live. split; [exact Hkey |]. simpl. apply Z.leb_le. lia. }
  assert (Hget : get_token str_of t token_id w' = (w', Ok (PDict d))).
  { apply (get_token_present _ _ _ _ _ (now + (E - now))); trivial.
    now apply (dict_with_key_truthy "expires" (PTime E)). }
  exists d. split; [exact Hh |].
  unfold delete_token. rewrite (bind_run _ _ _ _ _ Hget).
  unfold bind, client_delete, lift, _zadd, client_zadd, client_bgsave, pickle_dumps.
  simpl. rewrite Hexp. simpl. rewrite Hz'. simpl. rewrite Hsv.
  destruct (saving w); simpl; rewrite ?Hb.
  - split; [reflexivity |]. split; [apply lookup_insert_eq |].
    split; [| reflexivity].
    rewrite lookup_insert_ne by congruence. apply lookup_delete_eq.
  - split; [reflexivity |]. split; [apply lookup_insert_eq |].
    split; [| reflexivity].
    rewrite lookup_insert_ne by congruence. apply lookup_delete_eq.
Qed.

Lemma created_token_can_be_revoked_witness :
  exists d,
    delete_token sample_str_of 110 "t2" world_t1_t2 = (world_t1_t2_deleted, Ok tt) /\
    redis world_t1_t2_deleted !! _revocation_list
      = Some (RZSet [(Pickle (PDict d), 200)]).
Proof.
  set (data := [("expires", PTime 200); ("user", PDict [("id", PStr "u1")])]).
  set (w1 := fst (sample_create 100 "t1" 0%nat (world_of data))).
  assert (Hrun : sample_create 100 "t2" 0%nat w1 = (world_t1_t2, Ok 2%nat))
    by (vm_compute; reflexivity).
  destruct (created_token_can_be_revoked sample_expire true "v2.0" "v3.0"
              sample_str_of 100 "t2" 0%nat w1 world_t1_t2 2%nat data 200 110 []
              ltac:(discriminate) ltac:(discriminate) eq_refl Hrun eq_refl
              ltac:(lia) eq_refl)
    as (d & _ & Hdel & Hrev & _).
  exists d. split; [| exact Hrev].
  rewrite (surjective_pairing (delete_token sample_str_of 110 "t2" world_t1_t2)).
  now rewrite Hdel.
Defined.

(** ** The read paths: [list_tokens] and [list_revoked_tokens] *)

Lemma filter_filter_same {A} (f : A -> bool) (l : list A) :
  List.filter f (List.filter f l) = List.filter f l.
Proof.
  induction l as [| a l IH]; simpl; [reflexivity |].
  destruct (f a) eqn:E; simpl; [rewrite E; f_equal |]; exact IH.
Qed.

Lemma zrange_world (now : Z) (key : string) (s e : Z) (w : world) :
  fst (_zrange now key s e w) = w.
Proof.
  unfold _zrange, client_zrange, bind, lift.
  now destruct (zset_at now key (redis w)).
Qed.

(** A second prune at the same instant finds nothing to do. *)
Lemma remove_expired_twice (now : Z) (key : string) (w w1 : world)
    (r : result unit) :
  _remove_expired now key w = (w1, r) -> _remove_expired now key w1 = (w1, r).
Proof.
  unfold _remove_expired, client_zremrangebyscore.
  destruct (rlookup now key (redis w)) as [[v d | z] |] eqn:E.
  - intros [= <- <-]. now rewrite E.
  - intros [= <- <-]. unfold set_redis. simpl.
    destruct (zset_remrangebyscore 0 now z) as [| x z1] eqn:Ez; simpl.
    + unfold rlookup. now rewrite lookup_delete_eq.
    + assert (Hz : zset_remrangebyscore 0 now (x :: z1) = x :: z1).
      { rewrite <- Ez. apply filter_filter_same. }
      unfold rlookup. rewrite lookup_insert_eq. cbn [live].
      rewrite Hz. cbn [put_zset]. now rewrite insert_insert_eq.
  - intros [= <- <-]. now rewrite E.
Qed.

(** What a prune writes: the key it is given, and there it only takes
    entries away. *)
Lemma remove_expired_frame (now : Z) (key : string) (w w1 : world)
    (r : result unit) :
  _remove_expired now key w = (w1, r) ->
  heap w1 = heap w /\ bgsaves w1 = bgsaves w /\
  (forall key', key' <> key -> redis w1 !! key' = redis w !! key') /\
  (redis w1 !! key = redis w !! key \/
   exists z, redis w !! key = Some (RZSet z) /\
             redis w1 !! key
             = match zset_remrangebyscore 0 now z with
               | [] => None
               | z1 => Some (RZSet z1)
               end).
Proof.
  unfold _remove_expired, client_zremrangebyscore.
  destruct (rlookup now key (redis w)) as [[v d | z] |] eqn:E.
  - intros [= <- <-]. repeat split; trivial. now left.
  - intros [= <- <-]. unfold set_redis. simpl. repeat split; trivial.
    + intros key' Hne. unfold put_zset.
      destruct (zset_remrangebyscore 0 now z);
        [now rewrite lookup_delete_ne | now rewrite lookup_insert_ne].
    + right. exists z. apply rlookup_live in E. destruct E as [E _].
      split; [exact E |]. unfold put_zset.
      destruct (zset_remrangebyscore 0 now z);
        [now rewrite lookup_delete_eq | now rewrite lookup_insert_eq].
  - intros [= <- <-]. repeat split; trivial. now left.
Qed.

Lemma list_tokens_world (str_of : pyval -> string) (now : Z) (user_id : string)
    (tenant_id trust_id consumer_id : option string) (w : world) :
  fst (list_tokens str_of now user_id tenant_id trust_id consumer_id w)
  = fst (_remove_expired now (_get_key str_of "user" (PStr user_id)) w).
Proof.
  unfold list_tokens. unfold bind at 1.
  destruct (_remove_expired now _ w) as [w1 [[] | e]]; [| reflexivity].
  unfold bind.
  destruct (_zrange now _ 0 (-1) w1) as [w2 [user_tokens | e]] eqn:Hz.
  - assert (Hw := zrange_world now (_get_key str_of "user" (PStr user_id)) 0 (-1) w1).
    rewrite Hz in Hw. simpl in Hw. subst w2.
    destruct (collect_tokens _ _ _ _ _ user_tokens w1) as [w3 r] eqn:Hc.
    now apply collect_world in Hc.
  - assert (Hw := zrange_world now (_get_key str_of "user" (PStr user_id)) 0 (-1) w1).
    now rewrite Hz in Hw.
Qed.

Lemma list_revoked_tokens_world (now : Z) (w : world) :
  fst (list_revoked_tokens now w) = fst (_remove_expired now _revocation_list w).
Proof.
  unfold list_revoked_tokens. unfold bind.
  destruct (_remove_expired now _ w) as [w1 [[] | e]]; [| reflexivity].
  apply zrange_world.
Qed.

(** X2: whatever it returns or raises, [list_tokens] writes one key
    only, the index of the user it is asked about: the heap, the saves
    requested, the records of the tokens, the revocation list and the
    indexes of the other users are as before. The index itself stays as it
    is, or loses its entries with a score from 0 to now, and goes with its
    key when none is left. *)
Theorem list_tokens_only_prunes (str_of : pyval -> string) (now : Z)
    (user_id : string) (tenant_id trust_id consumer_id : option string)
    (w : world) :
  let ukey := _get_key str_of "user" (PStr user_id) in
  let w' := fst (list_tokens str_of now user_id tenant_id trust_id consumer_id w) in
  heap w' = heap w /\ bgsaves w' = bgsaves w /\
  (forall key, key <> ukey -> redis w' !! key = redis w !! key) /\
  (redis w' !! ukey = redis w !! ukey \/
   exists z, redis w !! ukey = Some (RZSet z) /\
             redis w' !! ukey
             = match zset_remrangebyscore 0 now z with
               | [] => None
               | z1 => Some (RZSet z1)
               end).
Proof.
  intros ukey w'. unfold w'. rewrite list_tokens_world. fold ukey.
  destruct (_remove_expired now ukey w) as [w1 r] eqn:Hrm.
  exact (remove_expired_frame _ _ _ _ _ Hrm).
Qed.

(** X3: whatever it returns or raises, [list_revoked_tokens] writes one
    key only, the revocation list, and there it only takes away the
    entries with a score from 0 to now: the heap, the saves requested, the
    records of the tokens and the indexes of the users are as before. *)
Theorem list_revoked_tokens_only_prunes (now : Z) (w : world) :
  let w' := fst (list_revoked_tokens now w) in
  heap w' = heap w /\ bgsaves w' = bgsaves w /\
  (forall key, key <> _revocation_list -> redis w' !! key = redis w !! key) /\
  (redis w' !! _revocation_list = redis w !! _revocation_list \/
   exists z, redis w !! _revocation_list = Some (RZSet z) /\
             redis w' !! _revocation_list
             = match zset_remrangebyscore 0 now z with
               | [] => None
               | z1 => Some (RZSet z1)
               end).
Proof.
  intros w'. unfold w'. rewrite list_revoked_tokens_world.
  destruct (_remove_expired now _revocation_list w) as [w1 r] eqn:Hrm.
  exact (remove_expired_frame _ _ _ _ _ Hrm).
Qed.

(** X16: at one instant the read paths are idempotent: a second
    [list_tokens], or a second [list_revoked_tokens], on the world the
    first one left gives the same result, or the same exception, and
    leaves that world as it is. *)
Theorem read_paths_idempotent (str_of : pyval -> string) (now : Z)
    (user_id : string) (tenant_id trust_id consumer_id : option string)
    (w : world) :
  let list := list_tokens str_of now user_id tenant_id trust_id consumer_id in
  list (fst (list w)) = list w /\
  list_revoked_tokens now (fst (list_revoked_tokens now w))
  = list_revoked_tokens now w.
Proof.
  intros list. split.
  - unfold list. rewrite list_tokens_world.
    destruct (_remove_expired now _ w) as [w1 r] eqn:Hrm. simpl fst.
    assert (Hrm' := remove_expired_twice _ _ _ _ _ Hrm).
    unfold list_tokens. destruct r as [[] | e].
    + now rewrite (bind_run _ _ _ _ _ Hrm), (bind_run _ _ _ _ _ Hrm').
    + now rewrite (bind_raise _ _ _ _ _ Hrm), (bind_raise _ _ _ _ _ Hrm').
  - rewrite list_revoked_tokens_world.
    destruct (_remove_expired now _ w) as [w1 r] eqn:Hrm. simpl fst.
    assert (Hrm' := remove_expired_twice _ _ _ _ _ Hrm).
    unfold list_revoked_tokens. destruct r as [[] | e].
    + now rewrite (bind_run _ _ _ _ _ Hrm), (bind_run _ _ _ _ _ Hrm').
    + now rewrite (bind_raise _ _ _ _ _ Hrm), (bind_raise _ _ _ _ _ Hrm').
Qed.

(** *** The loop, once more *)

Section Collect.
Variable str_of : pyval -> string.
Variable now : Z.

(** The loop keeps the order of its candidates. *)
Lemma collect_sublist (tenant_id trust_id consumer_id : pyval)
    (user_tokens tokens : list pyval) (w w' : world) :
  collect_tokens str_of now tenant_id trust_id consumer_id user_tokens w
    = (w', Ok tokens) ->
  sublist tokens user_tokens.
Proof.
  revert tokens w'. induction user_tokens as [| t rest IH]; intros tokens w'.
  - intros [= _ <-]. constructor.
  - simpl. unfold bind at 1.
    destruct (keep_token str_of now tenant_id trust_id consumer_id t w)
      as [w1 [b | e]] eqn:K; [| discriminate].
    assert (w1 = w) by now apply keep_token_world in K. subst w1.
    unfold bind, ret.
    destruct (collect_tokens str_of now tenant_id trust_id consumer_id rest w)
      as [w2 [tokens' | e]] eqn:C; [| discriminate].
    intros [= _ <-]. specialize (IH _ _ eq_refl).
    destruct b; now constructor.
Qed.

(** A candidate that passes is in the result. *)
Lemma collect_keeps (tenant_id trust_id consumer_id : pyval)
    (user_tokens tokens : list pyval) (w w' : world) (token_id : pyval) :
  collect_tokens str_of now tenant_id trust_id consumer_id user_tokens w
    = (w', Ok tokens) ->
  In token_id user_tokens ->
  keep_token str_of now tenant_id trust_id consumer_id token_id w = (w, Ok true) ->
  In token_id tokens.
Proof.
  revert tokens w'. induction user_tokens as [| t rest IH]; intros tokens w'.
  - intros _ [].
  - simpl. unfold bind at 1.
    destruct (keep_token str_of now tenant_id trust_id consumer_id t w)
      as [w1 [b | e]] eqn:K; [| discriminate].
    assert (w1 = w) by now apply keep_token_world in K. subst w1.
    unfold bind, ret.
    destruct (collect_tokens str_of now tenant_id trust_id consumer_id rest w)
      as [w2 [tokens' | e]] eqn:C; [| discriminate].
    intros [= _ <-] [<- | Hin] Hk.
    + rewrite K in Hk. injection Hk as ->. now left.
    + specialize (IH _ _ eq_refl Hin Hk). destruct b; [now right | exact IH].
Qed.

(** Without a filter a candidate passes when its record is alive. *)
Lemma keep_token_unfiltered (token_id : pyval) (w : world) :
  record_readable str_of now (redis w) token_id ->
  keep_token str_of now PNone PNone PNone token_id w
    = (w, Ok (record_alive str_of now (redis w) token_id)).
Proof.
  unfold record_readable, record_alive.
  intros [H | (v & dl & H)]; rewrite H.
  - now apply keep_token_absent.
  - unfold keep_token. rewrite (bind_run _ _ _ _ _ (get_pickle _ _ _ _ _ H)).
    now destruct (truthy v).
Qed.

Lemma collect_unfiltered (user_tokens : list pyval) (w : world) :
  (forall token_id, In token_id user_tokens ->
     record_readable str_of now (redis w) token_id) ->
  collect_tokens str_of now PNone PNone PNone user_tokens w
    = (w, Ok (List.filter (record_alive str_of now (redis w)) user_tokens)).
Proof.
  induction user_tokens as [| t rest IH]; intros Hall; [reflexivity |].
  rewrite (collect_cons _ _ _ _ _ _ _ _ _
             (keep_token_unfiltered t w (Hall t (or_introl eq_refl)))).
  rewrite IH by (intros x Hx; apply Hall; now right).
  simpl. now destruct (record_alive str_of now (redis w) t).
Qed.
End Collect.

Lemma list_tokens_index (str_of : pyval -> string) (now : Z) (user_id : string)
    (tenant_id trust_id consumer_id : option string) (w w' : world)
    (tokens : list pyval) :
  list_tokens str_of now user_id tenant_id trust_id consumer_id w
    = (w', Ok tokens) ->
  exists z, zset_at now (_get_key str_of "user" (PStr user_id)) (redis w) = Ok z.
Proof.
  intros Hlist. unfold list_tokens in Hlist. apply bind_Ok in Hlist.
  destruct Hlist as (w1 & [] & Hrm & _).
  destruct (remove_expired_inv _ _ _ _ _ Hrm) as [(z & Hz & _) | (_ & ? & _)];
    [eauto | discriminate].
Qed.

(** X4: the ids [list_tokens] returns come in the order of the index:
    their pickles are a subsequence of the members the prune has left in
    the index of the user, which Redis keeps by increasing score, the
    expiry. No id is returned twice unless the index holds it twice. *)
Theorem list_tokens_in_index_order (str_of : pyval -> string) (now : Z)
    (user_id : string) (tenant_id trust_id consumer_id : option string)
    (w w' : world) (tokens : list pyval) :
  list_tokens str_of now user_id tenant_id trust_id consumer_id w
    = (w', Ok tokens) ->
  exists z,
    zset_at now (_get_key str_of "user" (PStr user_id)) (redis w) = Ok z /\
    sublist (map pickle_dumps tokens) (map fst (zset_remrangebyscore 0 now z)).
Proof.
  intros Hlist. destruct (list_tokens_index _ _ _ _ _ _ _ _ _ Hlist) as [z Hz].
  exists z. split; [exact Hz |].
  destruct (list_tokens_run str_of now user_id tenant_id trust_id consumer_id
              w z Hz) as (w1 & Hrun & _).
  rewrite Hrun in Hlist.
  destruct (map_loads _) as [user_tokens | e] eqn:Hl; [| discriminate].
  apply map_loads_Ok in Hl. rewrite Hl.
  apply collect_sublist in Hlist.
  unfold pickle_dumps. exact (fmap_sublist Pickle _ _ Hlist).
Qed.

Lemma list_tokens_in_index_order_witness :
  sublist [Pickle (PStr "t1")] [Pickle (PStr "t1"); Pickle (PStr "t2")].
Proof.
  pose (r := list_tokens sample_str_of 150 "u1" None None None world_t1_t2_deleted).
  assert (Hr : r = (fst r, Ok [PStr "t1"])) by (vm_compute; reflexivity).
  destruct (list_tokens_in_index_order sample_str_of 150 "u1" None None None
              world_t1_t2_deleted (fst r) [PStr "t1"] Hr) as (z & Hz & Hsub).
  vm_compute in Hz. injection Hz as <-. exact Hsub.
Defined.

(** X5: without a filter, on an index whose members are all pickles and
    whose candidates have a record that is a pickle or no record at all,
    [list_tokens] returns; the result is the candidates the prune has left,
    in their order, less those whose record is gone or false. *)
Theorem list_tokens_unfiltered (str_of : pyval -> string) (now : Z)
    (user_id : string) (w : world) (z : zset) (ids : list pyval) :
  zset_at now (_get_key str_of "user" (PStr user_id)) (redis w) = Ok z ->
  map fst (zset_remrangebyscore 0 now z) = map pickle_dumps ids ->
  (forall token_id, In token_id ids ->
     record_readable str_of now (redis w) token_id) ->
  snd (list_tokens str_of now user_id None None None w)
  = Ok (List.filter (record_alive str_of now (redis w)) ids).
Proof.
  intros Hz Hids Hall.
  destruct (list_tokens_run str_of now user_id None None None w z Hz)
    as (w1 & Hrun & _ & _ & _ & Hother).
  rewrite Hrun, Hids. unfold pickle_dumps. rewrite map_loads_pickles.
  assert (Hk : forall token_id,
             rlookup now (_get_key str_of "token" token_id) (redis w1)
             = rlookup now (_get_key str_of "token" token_id) (redis w)).
  { intros token_id. apply Hother. apply not_eq_sym, get_key_user_token_ne. }
  simpl arg. rewrite collect_unfiltered.
  - simpl. f_equal. apply List.filter_ext. intros token_id.
    unfold record_alive. now rewrite Hk.
  - intros token_id Hin. unfold record_readable. rewrite Hk. now apply Hall.
Qed.

Lemma list_tokens_unfiltered_witness :
  snd (list_tokens sample_str_of 150 "u1" None None None world_t1_t2_deleted)
  = Ok [PStr "t1"].
Proof.
  apply (list_tokens_unfiltered sample_str_of 150 "u1" world_t1_t2_deleted
           [(Pickle (PStr "t1"), 200); (Pickle (PStr "t2"), 200)]
           [PStr "t1"; PStr "t2"]).
  - vm_compute. reflexivity.
  - reflexivity.
  - intros token_id [<- | [<- | []]].
    + right. eexists _, _. vm_compute. reflexivity.
    + left. vm_compute. reflexivity.
Defined.

(** X6: a token that was created is listed for its owner until it
    expires: at every instant before the expiry, a [list_tokens] without
    filters for the user of the stored data that returns has the token id
    in its result (the empty id too, which [get_token] refuses). *)
Theorem created_token_is_listed (default_expire_time : Z -> Z)
    (trust_enabled : bool) (V2 V3 : string) (str_of : pyval -> string) (now : Z)
    (token_id : string) (data : loc) (w w' w'' : world) (l : loc)
    (d0 d : pydict) (user_id : string) (E t : Z) (tokens : list pyval) :
  heap w !! data = Some d0 ->
  create_token default_expire_time trust_enabled V2 V3 str_of now token_id data w
    = (w', Ok l) ->
  heap w' !! l = Some d ->
  dict_get "user_id" d = PStr user_id ->
  dict_lookup "expires" d = Some (PTime E) ->
  t < E ->
  list_tokens str_of t user_id None None None w' = (w'', Ok tokens) ->
  In (PStr token_id) tokens.
Proof.
  intros Hd Hrun Hl Huser Hexp Ht Hlist.
  destruct (create_token_Ok _ _ _ _ _ _ _ _ _ _ _ _ Hd Hrun)
    as (d' & E' & z2 & Hu & He & _ & Hheap & _ & _ & Hredis).
  rewrite Hheap, lookup_insert_eq in Hl. injection Hl as ->.
  assert (HE : E' = E).
  { rewrite (with_user_id_expires _ _ _ _ Hu), He in Hexp. now injection Hexp. }
  subst E'. rewrite Huser in Hredis.
  set (ukey := _get_key str_of "user" (PStr user_id)) in *.
  set (tkey := _get_key str_of "token" (PStr token_id)) in *.
  set (m := Pickle (PStr token_id)) in *.
  assert (Htu : ukey <> tkey) by apply get_key_user_token_ne.
  assert (Hrec : redis w' !! tkey
                 = Some (RString (Pickle (PDict d)) (now + (E - now)))).
  { destruct Hredis as [[_ ->] | (_ & trustee & z3 & _ & _ & ->)].
    - rewrite lookup_insert_ne by exact Htu. apply lookup_insert_eq.
    - rewrite lookup_insert_ne by apply get_key_user_token_ne.
      rewrite lookup_insert_ne by exact Htu. apply lookup_insert_eq. }
  assert (Hidx : exists z', zset_at t ukey (redis w') = Ok z' /\ In (m, E) z').
  { destruct Hredis as [[_ ->] | (_ & trustee & z3 & _ & Hz3 & ->)].
    - eexists. rewrite zset_at_insert_zset. split; [reflexivity |].
      apply In_zset_add. now left.
    - destruct (decide (_get_key str_of "user" trustee = ukey)) as [Heq | Hne].
      + rewrite Heq. eexists. rewrite zset_at_insert_zset. split; [reflexivity |].
        apply In_zset_add. now left.
      + eexists. rewrite zset_at_insert_ne by exact Hne.
        rewrite zset_at_insert_zset. split; [reflexivity |].
        apply In_zset_add. now left. }
  destruct Hidx as (z' & Hz' & Hin).
  destruct (list_tokens_run str_of t user_id None None None w' z' Hz')
    as (w1 & Hlrun & _ & _ & _ & Hother).
  fold ukey in Hother.
  rewrite Hlrun in Hlist.
  destruct (map_loads _) as [user_tokens | e] eqn:Hloads; [| discriminate].
  apply map_loads_Ok in Hloads.
  assert (Hcand : In (PStr token_id) user_tokens).
  { assert (Hm : In m (map fst (zset_remrangebyscore 0 t z'))).
    { apply in_map_iff. exists (m, E). split; [reflexivity |].
      apply In_zset_remrangebyscore. split; [exact Hin | simpl; lia]. }
    rewrite Hloads in Hm. apply in_map_iff in Hm.
    destruct Hm as (v & Hv & Hvin). unfold m in Hv. now injection Hv as ->. }
  apply (collect_keeps _ _ _ _ _ _ _ _ _ _ Hlist Hcand).
  assert (Hlive : rlookup t tkey (redis w1)
                  = Some (RString (Pickle (PDict d)) (now + (E - now)))).
  { rewrite Hother by (apply not_eq_sym, Htu).
    apply rlookup_live. split; [exact Hrec |]. simpl. apply Z.leb_le. lia. }
  assert (w'' = w1) by now apply collect_world in Hlist. subst w''.
  cbn [arg].
  rewrite (keep_token_dict str_of t PNone PNone PNone (PStr token_id) w1 d _ Hlive);
    [reflexivity |].
  intros ->. discriminate.
Qed.

Lemma created_token_is_listed_witness :
  In (PStr "t2") [PStr "t1"; PStr "t2"].
Proof.
  set (data := [("expires", PTime 200); ("user", PDict [("id", PStr "u1")])]).
  set (w1 := fst (sample_create 100 "t1" 0%nat (world_of data))).
  assert (Hrun : sample_create 100 "t2" 0%nat w1 = (world_t1_t2, Ok 2%nat))
    by (vm_compute; reflexivity).
  pose (r := list_tokens sample_str_of 150 "u1" None None None world_t1_t2).
  assert (Hr : r = (fst r, Ok [PStr "t1"; PStr "t2"])) by (vm_compute; reflexivity).
  apply (created_token_is_listed sample_expire true "v2.0" "v3.0" sample_str_of
           100 "t2" 0%nat w1 world_t1_t2 (fst r) 2%nat data
           [("expires", PTime 200); ("user", PDict [("id", PStr "u1")]);
            ("user_id", PStr "u1")]
           "u1" 200 150 [PStr "t1"; PStr "t2"] eq_refl Hrun).
  - vm_compute. reflexivity.
  - reflexivity.
  - reflexivity.
  - lia.
  - exact Hr.
Defined.

(** X17: on a revocation list that is a sorted set (or missing) and
    whose members are all pickles, [list_revoked_tokens] returns: the
    result is the records the prune has left, in the order of the list, and
    each of them has a score, its expiry, outside the range from 0 to
    now. *)
Theorem list_revoked_tokens_unexpired (now : Z) (w : world) (z : zset)
    (vs : list pyval) :
  zset_at now _revocation_list (redis w) = Ok z ->
  map fst (zset_remrangebyscore 0 now z) = map pickle_dumps vs ->
  snd (list_revoked_tokens now w) = Ok vs /\
  forall v, In v vs -> exists s, In (pickle_dumps v, s) z /\ ~ (0 <= s <= now).
Proof.
  intros Hz Hvs.
  destruct (list_revoked_tokens_run now w z Hz) as (w' & Hrun & _).
  split.
  - rewrite Hrun, Hvs. apply map_loads_pickles.
  - intros v Hin.
    assert (Hm : In (pickle_dumps v) (map fst (zset_remrangebyscore 0 now z))).
    { rewrite Hvs. now apply in_map. }
    apply in_map_iff in Hm. destruct Hm as ([m s] & Hfst & Hms).
    simpl in Hfst. subst m. exists s.
    now apply In_zset_remrangebyscore in Hms.
Qed.

Lemma list_revoked_tokens_unexpired_witness :
  exists d,
    snd (list_revoked_tokens 150 world_t1_t2_deleted) = Ok [PDict d] /\
    dict_lookup "expires" d = Some (PTime 200).
Proof.
  eexists.
  split; [| shelve].
  refine (proj1 (list_revoked_tokens_unexpired 150 world_t1_t2_deleted
                   _ [_] _ _)).
  - vm_compute. reflexivity.
  - reflexivity.
  Unshelve. reflexivity.
Defined.

(** ** The helpers [_set], [_get], [_zadd] and [_zrange] *)

(** X18: with a time to live that is positive, [_set] stores the value
    under the key, whatever the key held before, and [_get] gives it back
    until the time to live is over, and [None] after that. With a time to
    live of zero or less, [_set] raises the error of Redis and writes
    nothing. *)
Theorem set_then_get (now t : Z) (key : string) (value : pyval) (ttl : Z)
    (w : world) :
  (0 < ttl ->
   let w' := fst (_set now key value ttl w) in
   snd (_set now key value ttl w) = Ok tt /\
   _get t key w' = (w', Ok (if t <=? now + ttl then value else PNone))) /\
  (ttl <= 0 -> _set now key value ttl w = (w, Raise ResponseError)).
Proof.
  unfold _set, client_setex, set_redis, pickle_dumps. split.
  - intros Httl. destruct (ttl <=? 0) eqn:L; [apply Z.leb_le in L; lia |].
    simpl fst. simpl snd. split; [reflexivity |].
    destruct (t <=? now + ttl) eqn:C.
    + apply (get_pickle _ _ _ _ (now + ttl)). unfold rlookup. simpl.
      now rewrite lookup_insert_eq; simpl; rewrite C.
    + apply get_absent. unfold rlookup. simpl.
      now rewrite lookup_insert_eq; simpl; rewrite C.
  - intros Httl. destruct (ttl <=? 0) eqn:L; [reflexivity |].
    apply Z.leb_gt in L. lia.
Qed.

Lemma set_then_get_witness :
  let w' := fst (_set 100 "k" (PStr "v") 60 (World ∅ ∅ 0 false)) in
  _get 160 "k" w' = (w', Ok (PStr "v")) /\ _get 161 "k" w' = (w', Ok PNone).
Proof.
  intros w'. split.
  - apply (proj1 (set_then_get 100 160 "k" (PStr "v") 60 (World ∅ ∅ 0 false))).
    lia.
  - apply (proj1 (set_then_get 100 161 "k" (PStr "v") 60 (World ∅ ∅ 0 false))).
    lia.
Defined.

Lemma all_pickles_decode (l : list rbytes) :
  (forall m, In m l -> exists v, m = Pickle v) -> exists vs, l = map Pickle vs.
Proof.
  induction l as [| m l IH]; intros H; [now exists [] |].
  destruct (H m (or_introl eq_refl)) as [v ->].
  destruct IH as [vs ->]; [intros m Hm; apply H; now right |].
  now exists (v :: vs).
Qed.

Lemma occurrences_decoded (value : pyval) (vs : list pyval) (z : zset) :
  map Pickle vs = map fst z ->
  length (List.filter (fun v => pyval_eqb v value) vs)
  = occurrences (Pickle value) z.
Proof.
  unfold occurrences. revert z.
  induction vs as [| v vs IH]; intros [| [m s] z]; simpl; try discriminate;
    [reflexivity |].
  intros [= <- H]. simpl.
  destruct (pyval_eqb v value); simpl; now rewrite (IH z H).
Qed.

(** X19: [_zadd] on a key that holds a sorted set of pickles, or
    nothing, goes through, and [_zrange] then returns the value once,
    beside the values that were there: adding a value again moves it to
    its new score and does not repeat it. On a key that holds a string
    [_zadd] raises the error of Redis and writes nothing. *)
Theorem zadd_then_zrange (now : Z) (key : string) (score : Z) (value : pyval)
    (w : world) :
  let w' := fst (_zadd now key score value w) in
  (forall z vs,
     zset_at now key (redis w) = Ok z -> map fst z = map pickle_dumps vs ->
     snd (_zadd now key score value w) = Ok tt /\
     exists vs',
       _zrange now key 0 (-1) w' = (w', Ok vs') /\
       length (List.filter (fun v => pyval_eqb v value) vs') = 1%nat /\
       forall v, In v vs' <-> v = value \/ In v vs) /\
  (zset_at now key (redis w) = Raise ResponseError ->
   _zadd now key score value w = (w, Raise ResponseError)).
Proof.
  intros w'. unfold w', _zadd, client_zadd, pickle_dumps. split.
  - intros z vs Hz Hvs. rewrite Hz. simpl fst. simpl snd.
    split; [reflexivity |].
    set (z' := zset_add (Pickle value) score z).
    set (w1 := set_redis (<[key := RZSet z']> (redis w)) w).
    assert (Hz' : zset_at now key (redis w1) = Ok z')
      by apply zset_at_insert_zset.
    destruct (all_pickles_decode (map fst z')) as [vs' Hvs'].
    { intros m Hm. apply in_map_iff in Hm. destruct Hm as ([m' s] & <- & Hin).
      apply In_zset_add in Hin. destruct Hin as [[= -> _] | [_ Hin]]; [eauto |].
      assert (Hm : In m' (map fst z)) by (apply in_map_iff; now exists (m', s)).
      rewrite Hvs in Hm. apply in_map_iff in Hm.
      destruct Hm as (v & <- & _). simpl. eauto. }
    exists vs'. split; [| split].
    + rewrite (zrange_run _ _ _ _ Hz'), Hvs'. now rewrite map_loads_pickles.
    + rewrite (occurrences_decoded value vs' z') by now symmetry.
      apply occurrences_zset_add.
    + intros v. split.
      * intros Hin.
        assert (Hm : In (Pickle v) (map fst z'))
          by (rewrite Hvs'; now apply in_map).
        apply in_map_iff in Hm. destruct Hm as ([m s] & Hfst & Hms).
        simpl in Hfst. subst m. apply In_zset_add in Hms.
        destruct Hms as [[= -> _] | [_ Hms]]; [now left | right].
        assert (Hm : In (Pickle v) (map fst z))
          by (apply in_map_iff; now exists (Pickle v, s)).
        rewrite Hvs in Hm. apply in_map_iff in Hm.
        destruct Hm as (v' & [= ->] & Hv'). exact Hv'.
      * intros Hv.
        assert (Hm : In (Pickle v) (map fst z')).
        { destruct (pyval_eqb v value) eqn:Ev.
          - apply pyval_eqb_eq in Ev. subst v.
            apply in_map_iff. exists (Pickle value, score).
            split; [reflexivity |]. apply In_zset_add. now left.
          - apply pyval_eqb_false in Ev.
            destruct Hv as [-> | Hv]; [congruence |].
            assert (Hm : In (Pickle v) (map fst z))
              by (rewrite Hvs; now apply in_map).
            apply in_map_iff in Hm. destruct Hm as ([m s] & Hfst & Hms).
            simpl in Hfst. subst m.
            apply in_map_iff. exists (Pickle v, s). split; [reflexivity |].
            apply In_zset_add. right. split; [simpl; congruence | exact Hms]. }
        rewrite Hvs' in Hm. apply in_map_iff in Hm.
        destruct Hm as (v' & [= ->] & Hv'). exact Hv'.
  - intros Hz. now rewrite Hz.
Qed.

Lemma zadd_then_zrange_witness :
  let w := World {[ "k" := RZSet [(Pickle (PStr "a"), 1); (Pickle (PStr "b"), 2)] ]}
             ∅ 0 false in
  exists vs',
    length (List.filter (fun v => pyval_eqb v (PStr "a")) vs') = 1%nat /\
    (In (PStr "b") vs' <-> PStr "b" = PStr "a" \/ In (PStr "b") [PStr "a"; PStr "b"]).
Proof.
  intros w.
  destruct (zadd_then_zrange 0 "k" 5 (PStr "a") w) as [H _].
  destruct (H [(Pickle (PStr "a"), 1); (Pickle (PStr "b"), 2)]
              [PStr "a"; PStr "b"] eq_refl eq_refl) as (_ & vs' & _ & H1 & H2).
  exists vs'. split; [exact H1 | apply H2].
Defined.

(** ** The memcache client of the tests *)

Lemma memcache_get_str (now : Z) (k : string) (c : MemcacheClient.client) :
  MemcacheClient.get now (PStr k) c
  = (c, MemcacheClient.Return
          match MemcacheClient.cache c !! k with
          | Some (v, time) => if (time =? 0) || (now <? time) then v else PNone
          | None => PNone
          end).
Proof.
  unfold MemcacheClient.get. simpl.
  destruct (MemcacheClient.cache c !! k) as [[v time] |]; [| reflexivity].
  simpl. now destruct ((time =? 0) || (now <? time)).
Qed.

(** X20: what [set] stores under a key, [get] gives back for ever when
    the time is 0, and until the time otherwise; after it, [get] gives
    [None]. The other keys read as before. *)
Theorem memcache_set_then_get (now : Z) (k : string) (value : pyval) (time : Z)
    (c : MemcacheClient.client) :
  let c' := fst (MemcacheClient.set (PStr k) value time c) in
  snd (MemcacheClient.set (PStr k) value time c) = MemcacheClient.Return true /\
  MemcacheClient.get now (PStr k) c'
  = (c', MemcacheClient.Return
           (if (time =? 0) || (now <? time) then value else PNone)) /\
  forall k', k' <> k ->
    snd (MemcacheClient.get now (PStr k') c')
    = snd (MemcacheClient.get now (PStr k') c).
Proof.
  intros c'. split; [reflexivity |]. split.
  - rewrite memcache_get_str. unfold c'. simpl.
    now rewrite lookup_insert_eq.
  - intros k' Hne. rewrite !memcache_get_str. unfold c'. simpl.
    now rewrite lookup_insert_ne by congruence.
Qed.

(** X21: [add] does not touch a key that reads as a true value: it
    returns [False] and the client is as before. On a key that reads as
    [None] or as a false value (missing, past its time, or holding such a
    value) it stores the new value with the time 0, so that the key reads
    as this value at every instant from then on. *)
Theorem memcache_add_spec (now t : Z) (k : string) (value : pyval)
    (c : MemcacheClient.client) :
  exists v,
    MemcacheClient.get now (PStr k) c = (c, MemcacheClient.Return v) /\
    let run := MemcacheClient.add now (PStr k) value c in
    snd run = MemcacheClient.Return (negb (truthy v)) /\
    (truthy v = true -> fst run = c) /\
    (truthy v = false ->
     MemcacheClient.get t (PStr k) (fst run)
     = (fst run, MemcacheClient.Return value)).
Proof.
  eexists. split; [apply memcache_get_str |].
  unfold MemcacheClient.add. rewrite memcache_get_str.
  destruct (truthy _) eqn:T; simpl.
  - repeat split; trivial. discriminate.
  - repeat split; trivial; [discriminate |]. intros _.
    rewrite memcache_get_str. simpl. now rewrite lookup_insert_eq.
Qed.

(** X22: after [delete] the key reads as [None] at every instant, a
    second [delete] changes nothing and raises nothing, a [delete] of a key
    that is not in the cache leaves the client as it is, and the other
    keys read as before. *)
Theorem memcache_delete_then_get (now : Z) (k : string)
    (c : MemcacheClient.client) :
  let c' := fst (MemcacheClient.delete (PStr k) c) in
  snd (MemcacheClient.delete (PStr k) c) = MemcacheClient.Return tt /\
  MemcacheClient.get now (PStr k) c' = (c', MemcacheClient.Return PNone) /\
  MemcacheClient.delete (PStr k) c' = (c', MemcacheClient.Return tt) /\
  (MemcacheClient.cache c !! k = None -> c' = c) /\
  forall k', k' <> k ->
    snd (MemcacheClient.get now (PStr k') c')
    = snd (MemcacheClient.get now (PStr k') c).
Proof.
  intros c'. split; [reflexivity |]. split; [| split; [| split]].
  - rewrite memcache_get_str. unfold c'. simpl. now rewrite lookup_delete_eq.
  - unfold c', MemcacheClient.delete. simpl. unfold MemcacheClient.cache_delitem.
    simpl. f_equal. f_equal. apply delete_id. apply lookup_delete_eq.
  - intros Hk. unfold c'. simpl. destruct c as [m b]. simpl in *.
    f_equal. now apply delete_id.
  - intros k' Hne. rewrite !memcache_get_str. unfold c'. simpl.
    now rewrite lookup_delete_ne by congruence.
Qed.

(** X23: [append] on a key that reads as a true string stores the
    string with the new one at its end and returns [True]; it stores it
    with the time 0, so the key reads as the longer string at every
    instant from then on, also after the time the old value had. On a key
    that reads as [None] or as a false value it returns [False] and the
    client is as before. *)
Theorem memcache_append_spec (now t : Z) (k : string) (y : string)
    (c : MemcacheClient.client) :
  let run := MemcacheClient.append now (PStr k) (PStr y) c in
  (forall x,
     snd (MemcacheClient.get now (PStr k) c) = MemcacheClient.Return (PStr x) ->
     x <> "" ->
     snd run = MemcacheClient.Return true /\
     MemcacheClient.get t (PStr k) (fst run)
     = (fst run, MemcacheClient.Return (PStr (x ++ y)))) /\
  (forall v,
     snd (MemcacheClient.get now (PStr k) c) = MemcacheClient.Return v ->
     truthy v = false ->
     run = (c, MemcacheClient.Return false)).
Proof.
  intros run. unfold run, MemcacheClient.append.
  rewrite memcache_get_str. simpl snd. split.
  - intros x [= ->] Hx. apply truthy_str in Hx. rewrite Hx. simpl.
    split; [reflexivity |].
    rewrite memcache_get_str. simpl. now rewrite lookup_insert_eq.
  - intros v [= ->] Hv. now rewrite Hv.
Qed.

Lemma memcache_append_spec_witness :
  let c := MemcacheClient.Client {[ "k" := (PStr "a", 10) ]} false in
  let run := MemcacheClient.append 5 (PStr "k") (PStr "b") c in
  snd run = MemcacheClient.Return true /\
  MemcacheClient.get 20 (PStr "k") (fst run)
  = (fst run, MemcacheClient.Return (PStr "ab")).
Proof.
  intros c run.
  destruct (memcache_append_spec 5 20 "k" "b" c) as [H _].
  apply (H "a"); [reflexivity | discriminate].
Defined.

(** X24: a key that is no [str] is refused: [get], [gets], [set],
    [add], [append] and [delete] raise [MemcachedStringEncodingError] and
    leave the client as it is. [cas] does so too, unless the client
    rejects it: then it returns [False] before it looks at the key. *)
Theorem memcache_key_not_str (now : Z) (key value : pyval) (time : Z)
    (c : MemcacheClient.client) :
  (forall k, key <> PStr k) ->
  let refused {A} (run : MemcacheClient.client * MemcacheClient.outcome A) :=
    run = (c, MemcacheClient.Raised MemcacheClient.MemcachedStringEncodingError) in
  refused (MemcacheClient.get now key c) /\
  refused (MemcacheClient.gets now key c) /\
  refused (MemcacheClient.set key value time c) /\
  refused (MemcacheClient.add now key value c) /\
  refused (MemcacheClient.append now key value c) /\
  refused (MemcacheClient.delete key c) /\
  MemcacheClient.cas key value time c
  = if MemcacheClient.reject_cas c then (c, MemcacheClient.Return false)
    else (c, MemcacheClient.Raised MemcacheClient.MemcachedStringEncodingError).
Proof.
  intros Hkey refused. unfold refused.
  unfold MemcacheClient.cas, MemcacheClient.append, MemcacheClient.add,
    MemcacheClient.gets, MemcacheClient.delete, MemcacheClient.set,
    MemcacheClient.get.
  destruct key as [| n | s | tm | kvs]; simpl;
    try (destruct (MemcacheClient.reject_cas c); now repeat split).
  now destruct (Hkey s).
Qed.

Lemma memcache_key_not_str_witness :
  MemcacheClient.set (PInt 1) (PStr "v") 0 MemcacheClient.__init__
  = (MemcacheClient.__init__,
     MemcacheClient.Raised MemcacheClient.MemcachedStringEncodingError).
Proof.
  destruct (memcache_key_not_str 0 (PInt 1) (PStr "v") 0 MemcacheClient.__init__
              ltac:(discriminate)) as (_ & _ & H & _).
  exact H.
Defined.

(** ** [create_token]: what a failure leaves, and the id [revoked] *)

(** X25: [create_token] does not take back what it has written. When
    the data carries a [user_id] and a datetime [expires] in the future,
    and [create_token] raises all the same (the index of a user that
    cannot be written, a trust whose payload or version is not
    understood), the record is stored: [get_token] returns the data until
    the expiry has passed. When the expiry is not in the future, Redis
    refuses the record, and nothing is written. *)
Theorem create_token_failure_keeps_record (default_expire_time : Z -> Z)
    (trust_enabled : bool) (V2 V3 : string) (str_of : pyval -> string) (now : Z)
    (token_id : string) (data : loc) (w w' : world) (x : exn) (d0 : pydict)
    (E : Z) :
  token_id <> "" ->
  heap w !! data = Some d0 ->
  truthy (dict_get "user_id" d0) = true ->
  dict_lookup "expires" d0 = Some (PTime E) ->
  create_token default_expire_time trust_enabled V2 V3 str_of now token_id data w
    = (w', Raise x) ->
  (now < E ->
   forall t, t <= E -> get_token str_of t token_id w' = (w', Ok (PDict d0))) /\
  (E <= now -> x = ResponseError /\ redis w' = redis w).
Proof.
  intros Hid Hd Hu He Hrun. destruct w as [r h b sv]. simpl in Hd.
  rewrite (create_token_run default_expire_time trust_enabled V2 V3 str_of now
             token_id data r h b sv d0 Hd) in Hrun.
  cbv zeta in Hrun. unfold with_user_id, with_expires, expires_of in Hrun.
  rewrite He, Hu in Hrun. cbn [negb] in Hrun.
  destruct (E - now <=? 0) eqn:L.
  { apply Z.leb_le in L. injection Hrun as <- <-.
    split; [intros; lia | now intros _]. }
  apply Z.leb_gt in L. split; [| intros; lia].
  intros _ t Ht.
  set (tkey := _get_key str_of "token" (PStr token_id)) in *.
  set (r1 := <[tkey := RString (Pickle (PDict d0)) (now + (E - now))]> r) in *.
  assert (Hlive : forall r', r' !! tkey = r1 !! tkey ->
            rlookup t tkey r' = Some (RString (Pickle (PDict d0)) (now + (E - now)))).
  { intros r' Hr'. apply rlookup_live. rewrite Hr'. unfold r1.
    rewrite lookup_insert_eq. split; [reflexivity |]. simpl. apply Z.leb_le. lia. }
  assert (Hget : forall r' h' b' s',
            r' !! tkey = r1 !! tkey ->
            get_token str_of t token_id (World r' h' b' s')
            = (World r' h' b' s', Ok (PDict d0))).
  { intros r' h' b' s' Hr'.
    apply (get_token_present _ _ _ _ _ (now + (E - now))); trivial.
    - now apply Hlive.
    - now apply (dict_with_key_truthy "expires" (PTime E)). }
  assert (Hins : forall u r2 m s,
            zadd_at now (_get_key str_of "user" u) m s r1 = Ok r2 ->
            r2 !! tkey = r1 !! tkey).
  { intros u r2 m s Hz. apply zadd_at_Ok in Hz. destruct Hz as (z & _ & ->).
    apply lookup_insert_ne, get_key_user_token_ne. }
  match type of Hrun with
  | context [zadd_at ?a ?k ?m ?c ?e] =>
      destruct (zadd_at a k m c e) as [r2 | x2] eqn:Hz2
  end.
  2:{ injection Hrun as <- _. now apply Hget. }
  assert (H2 := Hins _ _ _ _ Hz2).
  destruct (trust_enabled && truthy (dict_get "trust_id" d0)); [| discriminate].
  destruct (trustee_of V2 V3 d0) as [trustee | x3].
  2:{ injection Hrun as <- _. now apply Hget. }
  match type of Hrun with
  | context [zadd_at ?a ?k ?m ?c ?e] =>
      destruct (zadd_at a k m c e) as [r3 | x4] eqn:Hz3
  end; [discriminate |].
  injection Hrun as <- _. now apply Hget.
Qed.

Lemma create_token_failure_keeps_record_witness :
  let run := create_token sample_expire true "v2.0" "v3.0" sample_str_of 100 "t1"
               0%nat (world_of (trust_data "v1.0")) in
  snd run = Raise UnsupportedTokenVersionException /\
  get_token sample_str_of 150 "t1" (fst run)
  = (fst run, Ok (PDict (trust_data "v1.0"))).
Proof.
  intros run.
  assert (Hrun : run = (fst run, Raise UnsupportedTokenVersionException))
    by (vm_compute; reflexivity).
  split; [now rewrite Hrun |].
  apply (proj1 (create_token_failure_keeps_record sample_expire true "v2.0"
                  "v3.0" sample_str_of 100 "t1" 0%nat
                  (world_of (trust_data "v1.0")) (fst run)
                  UnsupportedTokenVersionException (trust_data "v1.0") 200
                  ltac:(discriminate) eq_refl eq_refl eq_refl Hrun));
    lia.
Defined.

(** X26: a token created under the id [revoked] takes the place of the
    revocation list. Until it expires, [list_revoked_tokens] raises the
    error of Redis, and a [delete_token] of another token deletes the
    record of that token and then raises the same error: the token is
    gone and is not revoked, and no save is requested. *)
Theorem revoked_id_blocks_revocation (default_expire_time : Z -> Z)
    (trust_enabled : bool) (V2 V3 : string) (str_of : pyval -> string) (now : Z)
    (data : loc) (w w' : world) (l : loc) (d0 : pydict) (E t : Z) :
  heap w !! data = Some d0 ->
  create_token default_expire_time trust_enabled V2 V3 str_of now "revoked" data w
    = (w', Ok l) ->
  expires_of default_expire_time now d0 = PTime E ->
  t < E ->
  list_revoked_tokens t w' = (w', Raise ResponseError) /\
  forall token_id d dl E',
    token_id <> "" -> token_id <> "revoked" ->
    rlookup t (_get_key str_of "token" (PStr token_id)) (redis w')
      = Some (RString (Pickle (PDict d)) dl) ->
    dict_lookup "expires" d = Some (PTime E') ->
    delete_token str_of t token_id w'
    = (set_redis (delete (_get_key str_of "token" (PStr token_id)) (redis w')) w',
       Raise ResponseError).
Proof.
  intros Hd Hrun HE Ht.
  destruct (create_token_record _ _ _ _ _ _ _ _ _ _ _ _ Hd Hrun)
    as (d1 & E1 & HE1 & _ & _ & Hkey & _).
  rewrite HE in HE1. injection HE1 as <-.
  change (_get_key str_of "token" (PStr "revoked")) with _revocation_list in Hkey.
  assert (Hlive : forall r, r !! _revocation_list = redis w' !! _revocation_list ->
            rlookup t _revocation_list r
            = Some (RString (Pickle (PDict d1)) (now + (E - now)))).
  { intros r Hr. apply rlookup_live. rewrite Hr. split; [exact Hkey |].
    simpl. apply Z.leb_le. lia. }
  split.
  - unfold list_revoked_tokens. apply bind_raise.
    unfold _remove_expired, client_zremrangebyscore.
    now rewrite (Hlive (redis w') eq_refl).
  - intros token_id d dl E' Hid Hrev Hrec Hexp.
    assert (Hne := token_key_revocation_ne str_of token_id Hrev).
    assert (Hget : get_token str_of t token_id w' = (w', Ok (PDict d))).
    { apply (get_token_present _ _ _ _ _ dl); trivial.
      now apply (dict_with_key_truthy "expires" (PTime E')). }
    unfold delete_token. rewrite (bind_run _ _ _ _ _ Hget).
    unfold bind, client_delete, lift, _zadd, client_zadd, zset_at.
    simpl. rewrite Hexp. simpl.
    rewrite (Hlive _ (lookup_delete_ne _ _ _ Hne)). reflexivity.
Qed.

Lemma revoked_id_blocks_revocation_witness :
  list_revoked_tokens 150 world_token_revoked
  = (world_token_revoked, Raise ResponseError).
Proof.
  assert (Hrun : sample_create 100 "revoked" 0%nat
                   (world_of [("expires", PTime 200); ("user_id", PStr "u1")])
                 = (world_token_revoked, Ok 1%nat)) by (vm_compute; reflexivity).
  apply (revoked_id_blocks_revocation sample_expire true "v2.0" "v3.0"
           sample_str_of 100 0%nat
           (world_of [("expires", PTime 200); ("user_id", PStr "u1")])
           world_token_revoked 1%nat
           [("expires", PTime 200); ("user_id", PStr "u1")] 200 150
           eq_refl Hrun eq_refl).
  lia.
Defined.

(** ** The scores of the indexes are times after the epoch *)

Lemma scores_after_epoch_empty : scores_after_epoch ∅.
Proof. split; intros key; intros; now rewrite lookup_empty in *. Qed.

Lemma create_token_scores (default_expire_time : Z -> Z) (trust_enabled : bool)
    (V2 V3 : string) (str_of : pyval -> string) (now : Z) (token_id : string)
    (data : loc) (w : world) :
  0 <= now -> scores_after_epoch (redis w) ->
  scores_after_epoch
    (redis (fst (create_token default_expire_time trust_enabled V2 V3 str_of
                   now token_id data w))).
Proof.
  intros Hnow Hr. destruct w as [r h b sv]. simpl in Hr.
  destruct (h !! data) as [d0 |] eqn:Hd.
  2:{ unfold create_token, bind, deepcopy. simpl. now rewrite Hd. }
  rewrite (create_token_run default_expire_time trust_enabled V2 V3 str_of now
             token_id data r h b sv d0 Hd).
  cbv zeta.
  destruct (with_user_id _) as [d2 | x] eqn:Hu; [| exact Hr].
  destruct (expires_of default_expire_time now d0) as [| n | s | E | kvs] eqn:He;
    try exact Hr.
  destruct (E - now <=? 0) eqn:L; [exact Hr |].
  apply Z.leb_gt in L.
  assert (H1 : scores_after_epoch
                 (<[_get_key str_of "token" (PStr token_id)
                    := RString (Pickle (PDict d2)) (now + (E - now))]> r)).
  { apply sae_insert_record; [exact Hr |]. intros E' HE'.
    rewrite (with_user_id_expires _ _ _ _ Hu), He in HE'.
    injection HE' as <-. lia. }
  match goal with
  | |- context [zadd_at ?a ?k ?m ?c ?e] =>
      destruct (zadd_at a k m c e) as [r2 | x] eqn:Hz2
  end; [| exact H1].
  assert (HE : 0 <= E) by lia.
  assert (H2 : scores_after_epoch r2).
  { apply (sae_zadd_at _ _ _ _ _ _ H1 HE Hz2). }
  destruct (trust_enabled && truthy _); [| exact H2].
  destruct (trustee_of V2 V3 d2) as [trustee | x]; [| exact H2].
  match goal with
  | |- context [zadd_at ?a ?k ?m ?c ?e] =>
      destruct (zadd_at a k m c e) as [r3 | x] eqn:Hz3
  end; [| exact H2].
  apply (sae_zadd_at _ _ _ _ _ _ H2 HE Hz3).
Qed.

Lemma delete_token_scores (str_of : pyval -> string) (now : Z)
    (token_id : string) (w : world) :
  scores_after_epoch (redis w) ->
  scores_after_epoch (redis (fst (delete_token str_of now token_id w))).
Proof.
  intros Hr. unfold delete_token. unfold bind at 1.
  destruct (get_token str_of now token_id w) as [w1 [data | e]] eqn:G.
  2:{ assert (Hw := get_token_world str_of now token_id w).
      rewrite G in Hw. simpl in *. now subst w1. }
  apply get_token_Ok in G. destruct G as (-> & _ & _ & dl & Hrec).
  apply rlookup_live in Hrec. destruct Hrec as [Hrec _].
  assert (Hdel := sae_delete (_get_key str_of "token" (PStr token_id)) _ Hr).
  unfold bind, client_delete, lift, _zadd, client_zadd, client_bgsave. simpl.
  destruct data as [| n | s | tm | d]; simpl; try exact Hdel.
  destruct (dict_lookup "expires" d) as [e |] eqn:He; simpl; [| exact Hdel].
  destruct e as [| n | s | E | kvs]; simpl; try exact Hdel.
  assert (HE : 0 <= E).
  { destruct Hr as [_ H2]. exact (H2 _ d dl E Hrec He). }
  destruct (zset_at now _revocation_list _) as [z |] eqn:Hz; simpl;
    [| exact Hdel].
  assert (Hadd : scores_after_epoch
                   (<[_revocation_list := RZSet (zset_add (pickle_dumps (PDict d)) E z)]>
                      (delete (_get_key str_of "token" (PStr token_id)) (redis w)))).
  { apply sae_insert_zset; [exact Hdel |].
    intros m' s' Hin. apply In_zset_add in Hin.
    destruct Hin as [[= -> ->] | [_ Hin]]; [exact HE |].
    now apply (sae_zset_at now _ _ z Hdel Hz m' s'). }
  now destruct (saving w).
Qed.

(** On a clock after the epoch the driver keeps the scores after the
    epoch, whatever a call returns or raises: [create_token] takes only
    an expiry in the future, [delete_token] takes the expiry of the record
    for the score, and the read paths only take entries away. An empty
    Redis has no score, so every index the driver has written has its
    scores after the epoch. *)
Lemma driver_keeps_scores_after_epoch (default_expire_time : Z -> Z)
    (trust_enabled : bool) (V2 V3 : string) (str_of : pyval -> string) (now : Z)
    (w : world) :
  0 <= now -> scores_after_epoch (redis w) ->
  (forall token_id data,
     scores_after_epoch
       (redis (fst (create_token default_expire_time trust_enabled V2 V3 str_of
                      now token_id data w)))) /\
  (forall token_id,
     scores_after_epoch (redis (fst (delete_token str_of now token_id w)))) /\
  (forall token_id,
     scores_after_epoch (redis (fst (get_token str_of now token_id w)))) /\
  (forall user_id tenant_id trust_id consumer_id,
     scores_after_epoch
       (redis (fst (list_tokens str_of now user_id tenant_id trust_id
                      consumer_id w)))) /\
  scores_after_epoch (redis (fst (list_revoked_tokens now w))).
Proof.
  intros Hnow Hr. repeat split.
  - apply create_token_scores; trivial.
  - apply create_token_scores; trivial.
  - apply delete_token_scores; trivial.
  - apply delete_token_scores; trivial.
  - rewrite get_token_world. apply Hr.
  - rewrite get_token_world. apply Hr.
  - rewrite list_tokens_world. now apply remove_expired_scores.
  - rewrite list_tokens_world. now apply remove_expired_scores.
  - rewrite list_revoked_tokens_world. now apply remove_expired_scores.
  - rewrite list_revoked_tokens_world. now apply remove_expired_scores.
Qed.
